(** * Branch-synchronisation orchestrator of the Weblate action

    A shallow embedding of [src/utils.ts] (resource discovery) and
    [src/index.ts] (the three mode handlers), followed by the properties
    established about them.

    - Strings are [String.string]; JavaScript numbers that are array
      indices are [Z] (so that [indexOf]'s [-1] is written out).
    - [resolveComponents] is a function of a file-system oracle; it
      returns what it printed on the console together with either the
      resolved array or the error it threw.
    - The handlers are programs over the calls they make (platform client,
      logic helpers, GitHub client, console); a run is a list of events,
      each a call together with the answer the environment gave. *)

From Stdlib Require Import String Ascii List ZArith NArith Bool Lia DecimalString.
Import ListNotations.
Open Scope list_scope.
Open Scope string_scope.

(** [++] is string concatenation throughout; [+++] appends lists. *)
Infix "+++" := app (right associativity, at level 60).

(** ** JavaScript values used by the code *)

Module Js.

(** What a rejected promise or a [throw] carries. *)
Inductive JsError : Type :=
| TypeError (msg : string)
| Error (msg : string).

(** Completion of a call: a value, or a thrown error. *)
Inductive result (A : Type) : Type :=
| Ok (a : A)
| Err (e : JsError).
Arguments Ok {A} a.
Arguments Err {A} e.

(** [s.includes(needle)] *)
Fixpoint includes (needle s : string) : bool :=
  match s with
  | EmptyString => String.prefix needle EmptyString
  | String _ s' => String.prefix needle s || includes needle s'
  end.

(** [s.startsWith(p)] *)
Definition startsWith (p s : string) : bool := String.prefix p s.

(** [s.split(sep)] for a one-character separator: never empty,
    [''.split('/')] is [['']]. *)
Fixpoint split (sep : ascii) (s : string) : list string :=
  match s with
  | EmptyString => [EmptyString]
  | String c s' =>
      if Ascii.eqb c sep then EmptyString :: split sep s'
      else match split sep s' with
           | h :: t => String c h :: t
           | [] => [String c EmptyString]
           end
  end.

(** [arr.indexOf(x)]: position of the first occurrence, [-1] if none. *)
Fixpoint indexOf (x : string) (arr : list string) : Z :=
  match arr with
  | [] => -1
  | y :: arr' =>
      if String.eqb y x then 0
      else let i := indexOf x arr' in
           if (i =? -1)%Z then -1 else (i + 1)%Z
  end%Z.

(** [arr[i]]: [undefined] ([None]) outside the array. *)
Definition at_index {A : Type} (arr : list A) (i : Z) : option A :=
  if (i <? 0)%Z then None else nth_error arr (Z.to_nat i).

(** Truthiness of a [string | undefined]: the string when it is truthy
    (defined and not empty). *)
Definition truthy (v : option string) : option string :=
  match v with
  | Some s => if String.eqb s EmptyString then None else Some s
  | None => None
  end.

(** A [string | undefined] inside a template literal. *)
Definition interpolate (v : option string) : string :=
  match v with
  | Some s => s
  | None => "undefined"
  end.

(** A non-negative integer inside a template literal. *)
Definition number (n : N) : string := NilZero.string_of_uint (N.to_uint n).

Definition length_of {A : Type} (arr : list A) : string :=
  number (N.of_nat (List.length arr)).

(** A [number | undefined] inside a template literal. *)
Definition template_number (v : option N) : string :=
  match v with
  | Some n => number n
  | None => "undefined"
  end.

(** [arr.join(sep)] *)
Definition join (sep : string) (arr : list string) : string :=
  String.concat sep arr.

End Js.
Export Js.

(** ** Node's [path] module, POSIX flavour

    The action runs on Linux runners, where [path.sep] is ["/"]. These
    definitions follow the behaviour of [path.posix]; segments are the
    pieces between separators. *)

Module Path.

Definition sep : ascii := "/"%char.

Definition isAbsolute (p : string) : bool :=
  match p with
  | String c _ => Ascii.eqb c sep
  | EmptyString => false
  end.

Fixpoint endsWithSep (p : string) : bool :=
  match p with
  | EmptyString => false
  | String c EmptyString => Ascii.eqb c sep
  | String _ p' => endsWithSep p'
  end.

(** One step of [normalizeString]; [stack] holds the kept segments, last
    one first. *)
Definition normalize_step (allowAboveRoot : bool) (stack : list string)
           (seg : string) : list string :=
  if String.eqb seg "" || String.eqb seg "." then stack
  else if String.eqb seg ".." then
    match stack with
    | top :: rest =>
        if String.eqb top ".."
        then (if allowAboveRoot then ".." :: stack else stack)
        else rest
    | [] => if allowAboveRoot then [".."] else []
    end
  else seg :: stack.

Definition normalizeString (p : string) (allowAboveRoot : bool) : string :=
  Js.join "/"
    (rev (fold_left (normalize_step allowAboveRoot) (Js.split sep p) [])).

(** [path.normalize] *)
Definition normalize (p : string) : string :=
  if String.eqb p "" then "."
  else
    let abs := isAbsolute p in
    let trailing := endsWithSep p in
    let body := normalizeString p (negb abs) in
    if String.eqb body "" then
      if abs then "/" else if trailing then "./" else "."
    else
      let body' := if trailing then body ++ "/" else body in
      if abs then "/" ++ body' else body'.

(** [path.join(...parts)] *)
Definition join (parts : list string) : string :=
  let joined :=
    Js.join "/" (filter (fun a => negb (String.eqb a "")) parts) in
  if String.eqb joined "" then "." else normalize joined.

(** [path.resolve(cwd, p)], for an absolute [cwd]. *)
Definition resolve (cwd p : string) : string :=
  let full :=
    if isAbsolute p then p
    else if String.eqb p "" then cwd
    else cwd ++ "/" ++ p in
  "/" ++ normalizeString full false.

Definition is_sep (c : ascii) : bool := Ascii.eqb c sep.

Fixpoint dropWhile {A : Type} (f : A -> bool) (l : list A) : list A :=
  match l with
  | [] => []
  | x :: l' => if f x then dropWhile f l' else l
  end.

Fixpoint takeWhile {A : Type} (f : A -> bool) (l : list A) : list A :=
  match l with
  | [] => []
  | x :: l' => if f x then x :: takeWhile f l' else []
  end.

(** [path.basename(p)]: the last non-empty segment, trailing separators
    ignored. *)
Definition basename (p : string) : string :=
  let back := dropWhile is_sep (rev (list_ascii_of_string p)) in
  string_of_list_ascii
    (rev (takeWhile (fun c => negb (is_sep c)) back)).

(** [path.dirname(p)]: the scan runs from the last character down to
    index 1; [end] is the index of the separator before the last
    segment. *)
Definition dirname (p : string) : string :=
  match list_ascii_of_string p with
  | [] => "."
  | c0 :: rest =>
      let hasRoot := is_sep c0 in
      let back := dropWhile is_sep (rev rest) in
      match dropWhile (fun c => negb (is_sep c)) back with
      | [] => if hasRoot then "/" else "."
      | _ :: before =>
          if hasRoot && Nat.eqb (List.length before) 0 then "//"
          else string_of_list_ascii (c0 :: rev before)
      end
  end.

End Path.

(** ** [src/utils.ts]: resource discovery *)

Record ComponentInCode : Type := mkComponentInCode {
  name : string;
  source : string;
  fileMask : string;
}.

(** An entry of [fs.readdir(..., {withFileTypes: true})]. *)
Record Dirent : Type := mkDirent {
  dirent_name : string;
  isDirectory : bool;
}.

(** The file system as the function sees it. [glob] stands for the call
    [glob(pattern, {cwd: process.cwd(), absolute: false, ignore: [...]})],
    whose options are constants; [readdir] is keyed by the resolved
    (absolute) directory. *)
Record FileSystem : Type := mkFileSystem {
  cwd : string;
  glob : string -> result (list string);
  readdir : string -> result (list Dirent);
}.

(** A line written by [console.log] (its arguments) or by the two-argument
    [console.warn] of the glob branch. *)
Inductive ConsoleEntry : Type :=
| Log (args : list string)
| Warn (msg : string) (error : JsError).

Definition isGlobPattern (keysetsPath : string) : bool :=
  includes "*" keysetsPath || includes "?" keysetsPath
  || includes "[" keysetsPath.

(** The filter of both branches. *)
Definition visible_directory (dirent : Dirent) : bool :=
  isDirectory dirent && negb (startsWith "." (dirent_name dirent)).

(** The prefix computed for a glob match (utils.ts, lines 58-65). *)
Definition parentDirName (dir : string) : string :=
  let pathParts := split Path.sep dir in
  let projectsIndex := indexOf "projects" pathParts in
  let len := Z.of_nat (List.length pathParts) in
  if (negb (projectsIndex =? -1) && (projectsIndex + 1 <? len))%Z
  then interpolate (at_index pathParts (projectsIndex + 1))
  else
    match truthy (at_index pathParts (len - 2)) with
    | Some parent => parent
    | None => Path.basename (Path.dirname dir)
    end.

(** The groups of one glob match (lines 67-78). *)
Definition dirComponents (mainLanguage dir : string) (dirents : list Dirent)
  : list ComponentInCode :=
  map (fun d =>
         {| name := parentDirName dir ++ "_" ++ dirent_name d;
            source := Path.join [dir; dirent_name d; mainLanguage ++ ".json"];
            fileMask := Path.join [dir; dirent_name d; "*.json"] |})
      (filter visible_directory dirents).

(** The groups of the direct branch (lines 104-117). *)
Definition directComponents (keysetsPath mainLanguage : string)
           (dirents : list Dirent) : list ComponentInCode :=
  map (fun d =>
         {| name := dirent_name d;
            source :=
              Path.join [keysetsPath; dirent_name d; mainLanguage ++ ".json"];
            fileMask := Path.join [keysetsPath; dirent_name d; "*.json"] |})
      (filter visible_directory dirents).

(** State of the function while it runs: the [components] array and the
    console. *)
Definition Resolving : Type := (list ComponentInCode * list ConsoleEntry)%type.

(** One iteration of [for (const dir of matchedDirs)], with its
    [try]/[catch] (lines 49-91). *)
Definition visit (fs : FileSystem) (mainLanguage : string) (st : Resolving)
           (dir : string) : Resolving :=
  let '(components, console) := st in
  match readdir fs (Path.resolve (cwd fs) dir) with
  | Ok dirents =>
      let found := dirComponents mainLanguage dir dirents in
      (components +++ found,
       console +++
         [Log ["  ✅ " ++ dir ++ ": found " ++ length_of found
                 ++ " component(s)"];
          Log ["  📋 Components:"; Js.join ", " (map name found)]])
  | Err error =>
      (components,
       console +++
         [Warn ("  ⚠️ Failed to read directory " ++ dir ++ ":") error])
  end.

Definition resolveComponents (fs : FileSystem)
           (keysetsPath mainLanguage : string)
  : list ConsoleEntry * result (list ComponentInCode) :=
  if isGlobPattern keysetsPath then
    let console0 := [Log ["🔍 Glob pattern detected: " ++ keysetsPath]] in
    match glob fs keysetsPath with
    | Err e => (console0, Err e)
    | Ok matchedDirs =>
        let console1 :=
          console0 +++
            [Log ["📁 Found " ++ length_of matchedDirs
                    ++ " directories matching pattern"]] in
        let '(components, console2) :=
          fold_left (visit fs mainLanguage) matchedDirs ([], console1) in
        (console2 +++
           [Log ["✨ Total components found: " ++ length_of components]],
         Ok components)
    end
  else
    let console0 := [Log ["📂 Direct path: " ++ keysetsPath]] in
    match readdir fs (Path.resolve (cwd fs) keysetsPath) with
    | Err e => (console0, Err e)
    | Ok dirents =>
        let components := directComponents keysetsPath mainLanguage dirents in
        (console0 +++
           [Log ["✅ Found " ++ length_of components ++ " component(s) in "
                   ++ keysetsPath]],
         Ok components)
    end.

(** The warnings among the console lines. *)
Definition warnings (console : list ConsoleEntry) : list (string * JsError) :=
  flat_map (fun e => match e with
                     | Warn m err => [(m, err)]
                     | Log _ => []
                     end) console.

(** *** The file systems of [src/utils.test.ts] *)

Definition dir_entry (n : string) : Dirent :=
  {| dirent_name := n; isDirectory := true |}.
Definition file_entry (n : string) : Dirent :=
  {| dirent_name := n; isDirectory := false |}.

(** 'should resolve components from a direct path' *)
Definition fs_direct : FileSystem :=
  {| cwd := "/test/project";
     glob := fun _ => Ok [];
     readdir := fun _ =>
       Ok [dir_entry "component1"; dir_entry "component2";
           file_entry "file.json"] |}.

(** 'should add parent directory prefix to component names' *)
Definition fs_projects : FileSystem :=
  {| cwd := "/test/project";
     glob := fun _ =>
       Ok ["projects/project-a/src/i18n-keysets";
           "projects/project-b/src/i18n-keysets"];
     readdir := fun p =>
       if String.eqb p "/test/project/projects/project-a/src/i18n-keysets"
       then Ok [dir_entry "component1"]
       else Ok [dir_entry "component2"] |}.

(** 'should handle errors when reading glob-matched directories' *)
Definition fs_denied : FileSystem :=
  {| cwd := "/test/project";
     glob := fun _ =>
       Ok ["projects/project-a/src/i18n-keysets";
           "projects/project-b/src/i18n-keysets"];
     readdir := fun p =>
       if String.eqb p "/test/project/projects/project-a/src/i18n-keysets"
       then Ok [dir_entry "component1"; dir_entry ".hidden"]
       else Err (Error "Permission denied") |}.

(** ** [src/index.ts]: what the handlers exchange with their environment *)

Inductive ActionMode : Type :=
| SYNC_MASTER
| VALIDATE_PULL_REQUEST
| REMOVE_BRANCH.

(** The fields of [Configuration] that [index.ts] reads (the type itself is
    declared in [./config]). *)
Record Configuration : Type := mkConfiguration {
  mode : ActionMode;
  branchName : string;
  masterBranch : string;
  keysetsPath : string;
  mainLanguage : string;
  gitRepo : string;
  project : string;
  githubToken : string;
  pullRequestNumber : option N;
  pullRequestAuthor : option string;
}.

Definition CategoryId : Type := N.

(** Result of [createCategoryForBranch]. *)
Module Category.
Record t : Type := make {
  id : CategoryId;
  slug : string;
  wasRecentlyCreated : bool;
}.
End Category.

(** Result of [findCategoryForBranch], when there is one. *)
Module Found.
Record t : Type := make {
  id : CategoryId;
  slug : string;
}.
End Found.

(** A component as the platform reports it. *)
Module Component.
Record t : Type := make {
  name : string;
  slug : string;
  filemask : string;
  template : string;
  linked_component : option string;
}.
End Component.

Inductive ApplyAddons : Type :=
| AddonsMainBranch          (* 'main-branch' *)
| AddonsFalse.              (* false *)

(** The object passed to [weblate.createComponent]; a property that a call
    site leaves out is [None]. *)
Module Create.
Record t : Type := make {
  name : string;
  fileMask : string;
  categoryId : CategoryId;
  categorySlug : string;
  repo : string;
  branch : option string;
  source : string;
  repoForUpdates : option string;
  applyAddons : option ApplyAddons;
  pullRequestAuthor : option string;
  pullRequestNumber : option N;
  updateIfExist : option bool;
}.
End Create.

(** Result of [pullRemoteChanges]. *)
Record PullResult : Type := mkPullResult {
  mergeFailureMessage : option string;
}.

(** Result of [getComponentRepositoryErrors]. *)
Record RepositoryErrors : Type := mkRepositoryErrors {
  mergeFailureError : option string;
  needsCommitError : option string;
  needsPushError : option string;
}.

(** The calls whose completion the handlers wait for. The [weblate] client
    that the helpers of [./lib/logic] also receive is the environment
    itself and is left out of their arguments. *)
Inductive call : Type :=
| GetOctokit (token : string)
| CreateCategoryForBranch (branch : string)
| FindCategoryForBranch (branch : string)
| RemoveCategory (id : CategoryId)
| CreateComponent (args : Create.t)
| GetComponentsInCategory (categoryId : CategoryId)
| GetMainComponentInCategory (categoryId : CategoryId)
| WaitComponentsTasks (componentNames : list string) (categorySlug : string)
| PullComponentRemoteChanges (component categorySlug : string)
| PullRemoteChanges (config : Configuration) (categoryId : CategoryId)
                    (categorySlug : string)
| RemoveMissingComponents (config : Configuration) (categoryId : CategoryId)
                          (categorySlug : string)
                          (componentsInCode : list ComponentInCode)
| GetComponentRepositoryErrors (component categorySlug : string)
                               (config : Configuration)
| GetUntranslatedComponentsError (components : list Component.t)
                                 (categorySlug : string)
| ResolveComponents (keysetsPath mainLanguage : string)
| CreateComment (issue_number : option N) (body : string).

(** What each call resolves to. *)
Definition ret (c : call) : Type :=
  match c with
  | GetOctokit _ => unit
  | CreateCategoryForBranch _ => Category.t
  | FindCategoryForBranch _ => option Found.t
  | RemoveCategory _ => unit
  | CreateComponent _ => Component.t
  | GetComponentsInCategory _ => list Component.t
  | GetMainComponentInCategory _ => option Component.t
  | WaitComponentsTasks _ _ => unit
  | PullComponentRemoteChanges _ _ => unit
  | PullRemoteChanges _ _ _ => PullResult
  | RemoveMissingComponents _ _ _ _ => unit
  | GetComponentRepositoryErrors _ _ _ => RepositoryErrors
  | GetUntranslatedComponentsError _ _ => option string
  | ResolveComponents _ _ => list ComponentInCode
  | CreateComment _ _ => unit
  end.

(** What a handler emits without waiting for an answer. *)
Inductive output : Type :=
| SetFailed (message : string)
| ConsoleLog (message : string)
| ConsoleWarn (message : string).

(** One step of a run, as seen from outside. *)
Inductive event : Type :=
| Called (c : call) (r : result (ret c))
| Told (o : output).

Definition trace : Type := list event.

(** ** Programs *)

Inductive prog (A : Type) : Type :=
| Ret (a : A)
| Throw (e : JsError)
| Do (c : call) (k : result (ret c) -> prog A)
| Tell (o : output) (k : prog A).
Arguments Ret {A} a.
Arguments Throw {A} e.
Arguments Do {A} c k.
Arguments Tell {A} o k.

Fixpoint bind {A B : Type} (p : prog A) (f : A -> prog B) : prog B :=
  match p with
  | Ret a => f a
  | Throw e => Throw e
  | Do c k => Do c (fun r => bind (k r) f)
  | Tell o k => Tell o (bind k f)
  end.

Notation "x <- p ;; q" := (bind p (fun x => q))
  (at level 61, p at next level, right associativity).
Notation "p ;; q" := (bind p (fun _ => q))
  (at level 61, right associativity).

(** [await f(...)]: a rejection is rethrown. *)
Definition await (c : call) : prog (ret c) :=
  Do c (fun r => match r with
                 | Ok a => Ret a
                 | Err e => Throw e
                 end).

Definition tell (o : output) : prog unit := Tell o (Ret tt).

(** A promise run to its settlement. *)
Fixpoint settle {A : Type} (p : prog A) : prog (result A) :=
  match p with
  | Ret a => Ret (Ok a)
  | Throw e => Ret (Err e)
  | Do c k => Do c (fun r => settle (k r))
  | Tell o k => Tell o (settle k)
  end.

Fixpoint settle_all {A : Type} (ps : list (prog A)) : prog (list (result A)) :=
  match ps with
  | [] => Ret []
  | p :: ps' =>
      r <- settle p ;;
      rs <- settle_all ps' ;;
      Ret (r :: rs)
  end.

(** All values, or the first rejection. *)
Fixpoint collect {A : Type} (rs : list (result A)) : result (list A) :=
  match rs with
  | [] => Ok []
  | Err e :: _ => Err e
  | Ok a :: rs' =>
      match collect rs' with
      | Ok l => Ok (a :: l)
      | Err e => Err e
      end
  end.

(** [await Promise.all(promises)]: the promises were all started when the
    array was built, in array order, and every one of them settles; the
    rejection reported is the one of the first rejected element. *)
Definition promise_all {A : Type} (ps : list (prog A)) : prog (list A) :=
  rs <- settle_all ps ;;
  match collect rs with
  | Ok l => Ret l
  | Err e => Throw e
  end.

(** The imports of [index.ts], as awaited calls. *)
Module weblate.
Definition createCategoryForBranch (branch : string) : prog Category.t :=
  await (CreateCategoryForBranch branch).
Definition findCategoryForBranch (branch : string) : prog (option Found.t) :=
  await (FindCategoryForBranch branch).
Definition removeCategory (id : CategoryId) : prog unit :=
  await (RemoveCategory id).
Definition createComponent (args : Create.t) : prog Component.t :=
  await (CreateComponent args).
Definition getComponentsInCategory (categoryId : CategoryId)
  : prog (list Component.t) :=
  await (GetComponentsInCategory categoryId).
Definition getMainComponentInCategory (categoryId : CategoryId)
  : prog (option Component.t) :=
  await (GetMainComponentInCategory categoryId).
Definition waitComponentsTasks (componentNames : list string)
           (categorySlug : string) : prog unit :=
  await (WaitComponentsTasks componentNames categorySlug).
Definition pullComponentRemoteChanges (component categorySlug : string)
  : prog unit :=
  await (PullComponentRemoteChanges component categorySlug).
End weblate.

Definition pullRemoteChanges (config : Configuration)
           (categoryId : CategoryId) (categorySlug : string)
  : prog PullResult :=
  await (PullRemoteChanges config categoryId categorySlug).

Definition removeMissingComponents (config : Configuration)
           (categoryId : CategoryId) (categorySlug : string)
           (componentsInCode : list ComponentInCode) : prog unit :=
  await (RemoveMissingComponents config categoryId categorySlug
                                 componentsInCode).

Definition getComponentRepositoryErrors (component categorySlug : string)
           (config : Configuration) : prog RepositoryErrors :=
  await (GetComponentRepositoryErrors component categorySlug config).

Definition getUntranslatedComponentsError (components : list Component.t)
           (categorySlug : string) : prog (option string) :=
  await (GetUntranslatedComponentsError components categorySlug).

(** [resolveComponents] as the handlers call it; its body is the function
    of the same name above, run by the environment on its file system. *)
Definition resolveComponents_ (keysetsPath mainLanguage : string)
  : prog (list ComponentInCode) :=
  await (ResolveComponents keysetsPath mainLanguage).

Definition getOctokit (token : string) : prog unit :=
  await (GetOctokit token).

Definition createComment (issue_number : option N) (body : string)
  : prog unit :=
  await (CreateComment issue_number body).

Definition setFailed (message : string) : prog unit :=
  tell (SetFailed message).

Module console.
Definition log (message : string) : prog unit := tell (ConsoleLog message).
Definition warn (message : string) : prog unit := tell (ConsoleWarn message).
End console.

(** Whether a block ran into a [return]. *)
Inductive flow : Type :=
| Continue
| Return.

(** Reading a property of [undefined]. *)
Definition undefined_property (property : string) : JsError :=
  TypeError ("Cannot read properties of undefined (reading '" ++ property
             ++ "')").

(** ** The handlers *)

Definition SYNC_MASTER_uncommitted : string :=
  "⚠️ SYNC_MASTER: Weblate main branch has uncommitted changes. "
  ++ "Translators may be actively working on the branch.".

Definition SYNC_MASTER_unpushed : string :=
  "SYNC_MASTER: Weblate main branch has unpushed commits. "
  ++ "This typically happens when a source string was changed and Weblate "
  ++ "auto-committed formatting or flag changes via an addon (e.g. weblate.json.customize). "
  ++ "These commits must be pushed to the repository before PR validation will work correctly. "
  ++ "Push Weblate changes manually or trigger a push via the Weblate UI.".

Definition syncMaster (config : Configuration) : prog unit :=
  (* Create category for master branch *)
  category <- weblate.createCategoryForBranch (branchName config) ;;
  let categoryId := Category.id category in
  let categorySlug := Category.slug category in
  let categoryWasRecentlyCreated := Category.wasRecentlyCreated category in
  (* Pull remote changes from git with merge-conflict validation *)
  pulled <-
    (if negb categoryWasRecentlyCreated then
       pull <- pullRemoteChanges config categoryId categorySlug ;;
       match truthy (mergeFailureMessage pull) with
       | Some message => setFailed message ;; Ret Return
       | None => Ret Continue
       end
     else Ret Continue) ;;
  match pulled with
  | Return => Ret tt
  | Continue =>
  (* Resolve components from file structure in master branch *)
  componentsInCode <-
    resolveComponents_ (keysetsPath config) (mainLanguage config) ;;
  let firstComponent := hd_error componentsInCode in
  let otherComponents := tl componentsInCode in
  (* Creating first component for master branch *)
  match firstComponent with
  | None => Throw (undefined_property "name")
  | Some firstComponent =>
  firstWeblateComponent <-
    weblate.createComponent
      {| Create.name := name firstComponent;
         Create.fileMask := fileMask firstComponent;
         Create.categoryId := categoryId;
         Create.categorySlug := categorySlug;
         Create.repo := gitRepo config;
         Create.branch := Some (branchName config);
         Create.source := source firstComponent;
         Create.repoForUpdates := Some (gitRepo config);
         Create.applyAddons := Some AddonsMainBranch;
         Create.pullRequestAuthor := None;
         Create.pullRequestNumber := None;
         Create.updateIfExist := None |} ;;
  found <- weblate.getMainComponentInCategory categoryId ;;
  let mainComponent :=
    match found with
    | Some c => c
    | None => firstWeblateComponent
    end in
  (* Creating other components with a link to the first component *)
  let createComponentsPromises :=
    map (fun component =>
           weblate.createComponent
             {| Create.name := name component;
                Create.fileMask := fileMask component;
                Create.categoryId := categoryId;
                Create.categorySlug := categorySlug;
                Create.repo :=
                  "weblate://" ++ project config ++ "/" ++ categorySlug
                  ++ "/" ++ Component.slug mainComponent;
                Create.branch := None;
                Create.source := source component;
                Create.repoForUpdates := None;
                Create.applyAddons := Some AddonsMainBranch;
                Create.pullRequestAuthor := None;
                Create.pullRequestNumber := None;
                Create.updateIfExist := None |})
        otherComponents in
  promise_all createComponentsPromises ;;
  (* Wait for ALL components in the category (both newly created and
     pre-existing), so that no component is still locked when
     removeMissingComponents runs *)
  allWeblateComponents <- weblate.getComponentsInCategory categoryId ;;
  weblate.waitComponentsTasks (map Component.name allWeblateComponents)
                              categorySlug ;;
  removeMissingComponents config categoryId categorySlug componentsInCode ;;
  (* Check repository state after full sync and surface any issues *)
  repositoryErrors <-
    getComponentRepositoryErrors (Component.name mainComponent)
                                 categorySlug config ;;
  match truthy (mergeFailureError repositoryErrors) with
  | Some message => setFailed message
  | None =>
      match truthy (needsCommitError repositoryErrors) with
      | Some _ => console.warn SYNC_MASTER_uncommitted
      | None => Ret tt
      end ;;
      match truthy (needsPushError repositoryErrors) with
      | Some _ => setFailed SYNC_MASTER_unpushed
      | None => Ret tt
      end
  end
  end
  end.

(** [`${config.branchName}__${config.pullRequestNumber}`] *)
Definition pullRequestBranch (config : Configuration) : string :=
  branchName config ++ "__" ++ template_number (pullRequestNumber config).

(** [await octokit.rest.issues.createComment({...}); setFailed(...)] *)
Definition comment_and_fail (config : Configuration) (message : string)
  : prog unit :=
  createComment (pullRequestNumber config) message ;;
  setFailed message.

Definition validatePullRequest (config : Configuration) : prog unit :=
  getOctokit (githubToken config) ;;
  (* Create category for feature branch *)
  category <- weblate.createCategoryForBranch (pullRequestBranch config) ;;
  let categoryId := Category.id category in
  let categorySlug := Category.slug category in
  let categoryWasRecentlyCreated := Category.wasRecentlyCreated category in
  console.log ("✅ Created branch " ++ pullRequestBranch config) ;;
  prepared <-
    (* If the category was recently created, then we need to copy
       components from master branch *)
    (if categoryWasRecentlyCreated then
       masterCategory <- weblate.findCategoryForBranch (masterBranch config) ;;
       match masterCategory with
       | None =>
           setFailed ("Not found category for branch '"
                      ++ masterBranch config ++ "'") ;;
           Ret Return
       | Some masterCategory =>
           masterComponents <-
             weblate.getComponentsInCategory (Found.id masterCategory) ;;
           let mainMasterComponent :=
             match find (fun c =>
                           match truthy (Component.linked_component c) with
                           | Some _ => false
                           | None => true
                           end) masterComponents with
             | Some c => Some c
             | None => hd_error masterComponents
             end in
           createdComponents <-
             promise_all
               (map (fun component =>
                       match mainMasterComponent with
                       | None => Throw (undefined_property "slug")
                       | Some mainMasterComponent =>
                       weblate.createComponent
                         {| Create.name :=
                              Component.name component ++ "__"
                              ++ template_number
                                   (pullRequestNumber config);
                            Create.fileMask :=
                              Component.filemask component;
                            Create.categoryId := categoryId;
                            Create.categorySlug := categorySlug;
                            Create.repo :=
                              "weblate://" ++ project config ++ "/"
                              ++ Found.slug masterCategory ++ "/"
                              ++ Component.slug mainMasterComponent;
                            Create.branch := None;
                            Create.source :=
                              Component.template component;
                            Create.repoForUpdates := None;
                            Create.applyAddons := Some AddonsFalse;
                            Create.pullRequestAuthor :=
                              pullRequestAuthor config;
                            Create.pullRequestNumber :=
                              pullRequestNumber config;
                            Create.updateIfExist := None |}
                       end)
                    masterComponents) ;;
           console.log "✅ Created components" ;;
           (* Wait repository update *)
           weblate.waitComponentsTasks
             (map Component.name createdComponents) categorySlug ;;
           Ret Continue
       end
     else
       pull <- pullRemoteChanges config categoryId categorySlug ;;
       match truthy (mergeFailureMessage pull) with
       | Some message => comment_and_fail config message ;; Ret Return
       | None => Ret Continue
       end) ;;
  match prepared with
  | Return => Ret tt
  | Continue =>
  (* Resolve components from file structure in feature branch *)
  componentsInCode <-
    resolveComponents_ (keysetsPath config) (mainLanguage config) ;;
  let firstComponent := hd_error componentsInCode in
  let otherComponents := tl componentsInCode in
  console.log ("✅ Resolved components in code " ++ keysetsPath config
               ++ ", " ++ mainLanguage config) ;;
  (* Creating first component for feature branch *)
  match firstComponent with
  | None => Throw (undefined_property "name")
  | Some firstComponent =>
  firstWeblateComponent <-
    weblate.createComponent
      {| Create.name :=
           name firstComponent ++ "__"
           ++ template_number (pullRequestNumber config);
         Create.fileMask := fileMask firstComponent;
         Create.categoryId := categoryId;
         Create.categorySlug := categorySlug;
         Create.repo := gitRepo config;
         Create.branch := Some (branchName config);
         Create.source := source firstComponent;
         Create.repoForUpdates := Some (gitRepo config);
         Create.applyAddons := None;
         Create.pullRequestAuthor := pullRequestAuthor config;
         Create.pullRequestNumber := pullRequestNumber config;
         Create.updateIfExist := Some categoryWasRecentlyCreated |} ;;
  console.log "✅ Created components" ;;
  (* Creating other components with a link to the first component *)
  let createComponentsPromises :=
    map (fun component =>
           weblate.createComponent
             {| Create.name :=
                  name component ++ "__"
                  ++ template_number (pullRequestNumber config);
                Create.fileMask := fileMask component;
                Create.categoryId := categoryId;
                Create.categorySlug := categorySlug;
                Create.repo :=
                  "weblate://" ++ project config ++ "/" ++ categorySlug
                  ++ "/" ++ Component.slug firstWeblateComponent;
                Create.branch := None;
                Create.source := source component;
                Create.repoForUpdates := None;
                Create.applyAddons := None;
                Create.pullRequestAuthor := pullRequestAuthor config;
                Create.pullRequestNumber := pullRequestNumber config;
                Create.updateIfExist :=
                  Some categoryWasRecentlyCreated |})
        otherComponents in
  otherWeblateComponents <- promise_all createComponentsPromises ;;
  let weblateComponents := firstWeblateComponent :: otherWeblateComponents in
  (* Pulling changes to weblate from remote repository *)
  (if negb categoryWasRecentlyCreated then
     weblate.pullComponentRemoteChanges
       (Component.name firstWeblateComponent) categorySlug
   else Ret tt) ;;
  (* Wait repository update *)
  weblate.waitComponentsTasks (map Component.name weblateComponents)
                              categorySlug ;;
  removeMissingComponents config categoryId categorySlug componentsInCode ;;
  repositoryErrors <-
    getComponentRepositoryErrors (Component.name firstWeblateComponent)
                                 categorySlug config ;;
  match truthy (mergeFailureError repositoryErrors) with
  | Some message => comment_and_fail config message
  | None =>
  match truthy (needsCommitError repositoryErrors) with
  | Some message => comment_and_fail config message
  | None =>
  match truthy (needsPushError repositoryErrors) with
  | Some message => comment_and_fail config message
  | None =>
  untranslatedComponentsError <-
    getUntranslatedComponentsError weblateComponents categorySlug ;;
  match truthy untranslatedComponentsError with
  | Some message => comment_and_fail config message
  | None => Ret tt
  end
  end
  end
  end
  end
  end.

Definition removeBranch (config : Configuration) : prog unit :=
  category <- weblate.findCategoryForBranch (pullRequestBranch config) ;;
  match category with
  | None =>
      console.log ("Branch '" ++ pullRequestBranch config
                   ++ "' not found in Weblate.")
  | Some category =>
      weblate.removeCategory (Found.id category) ;;
      console.log ("Branch '" ++ pullRequestBranch config
                   ++ "' removed from Weblate.")
  end.

Definition modeToHandler (m : ActionMode) : Configuration -> prog unit :=
  match m with
  | SYNC_MASTER => syncMaster
  | VALIDATE_PULL_REQUEST => validatePullRequest
  | REMOVE_BRANCH => removeBranch
  end.

(** ** Runs *)

(** [path p t o]: the program can produce the events [t] and end with [o]
    (a value, or an uncaught error), for some answers of the environment. *)
Fixpoint path {A : Type} (p : prog A) (t : trace) (o : result A) : Prop :=
  match p with
  | Ret a => t = [] /\ o = Ok a
  | Throw e => t = [] /\ o = Err e
  | Do c k => exists r t', t = Called c r :: t' /\ path (k r) t' o
  | Tell m k => exists t', t = Told m :: t' /\ path k t' o
  end.

(** An environment over a state [W] answers every call and moves on. *)
Definition Env (W : Type) : Type := forall c : call, W -> result (ret c) * W.

(** A run against an environment: the outcome, the final state, and every
    event together with the state in which it happened. *)
Fixpoint run {W A : Type} (env : Env W) (p : prog A) (w : W)
  : result A * W * list (W * event) :=
  match p with
  | Ret a => (Ok a, w, [])
  | Throw e => (Err e, w, [])
  | Do c k =>
      let '(r, w1) := env c w in
      let '(o, w2, h) := run env (k r) w1 in
      (o, w2, (w, Called c r) :: h)
  | Tell m k =>
      let '(o, w2, h) := run env k w in
      (o, w2, (w, Told m) :: h)
  end.

Definition outcome {W A : Type} (x : result A * W * list (W * event))
  : result A := fst (fst x).
Definition final {W A : Type} (x : result A * W * list (W * event)) : W :=
  snd (fst x).
Definition history {W A : Type} (x : result A * W * list (W * event))
  : list (W * event) := snd x.
Definition events {W A : Type} (x : result A * W * list (W * event))
  : trace := map snd (snd x).

(** ** A model of the platform *)

(** Modelled from the spec: the platform client ([./lib/weblate]), the
    helpers of [./lib/logic] and the GitHub client are not among the
    sources at hand. This module is their contract as the specification
    gives it (sections 3, 4.2 to 4.4 and 6), over an explicit platform
    state; it serves to run the handlers on concrete platforms. *)
Module Platform.

(** Modelled from the spec: a category, the container of the components
    that mirror one branch. *)
Record category : Type := mkCategory {
  category_id : CategoryId;
  branch : string;
  category_slug : string;
  components : list Component.t;
}.

(** Modelled from the spec: the state of the platform and what its
    queries answer (the repository, the pull result, the health of the
    owning component, the translation progress). *)
Record World : Type := mkWorld {
  categories : list category;
  next_id : CategoryId;
  files : FileSystem;
  pull : PullResult;
  repository : RepositoryErrors;
  untranslated : option string;
}.

Definition with_categories (w : World) (cs : list category) : World :=
  {| categories := cs;
     next_id := next_id w;
     files := files w;
     pull := pull w;
     repository := repository w;
     untranslated := untranslated w |}.

Definition find_branch (b : string) (cs : list category) : option category :=
  find (fun c => String.eqb (branch c) b) cs.

Definition find_id (i : CategoryId) (cs : list category) : option category :=
  find (fun c => N.eqb (category_id c) i) cs.

Definition components_of (i : CategoryId) (w : World) : list Component.t :=
  match find_id i (categories w) with
  | Some c => components c
  | None => []
  end.

Definition update_components (i : CategoryId)
           (f : list Component.t -> list Component.t)
           (cs : list category) : list category :=
  map (fun c =>
         if N.eqb (category_id c) i
         then {| category_id := category_id c;
                 branch := branch c;
                 category_slug := category_slug c;
                 components := f (components c) |}
         else c) cs.

(** Modelled from the spec: "creation is idempotent (a repeat call against
    an existing branch name returns the existing category with
    wasRecentlyCreated = false)" *)
Definition createCategoryForBranch (b : string) (w : World)
  : Category.t * World :=
  match find_branch b (categories w) with
  | Some c =>
      ({| Category.id := category_id c;
          Category.slug := category_slug c;
          Category.wasRecentlyCreated := false |}, w)
  | None =>
      ({| Category.id := next_id w;
          Category.slug := b;
          Category.wasRecentlyCreated := true |},
       {| categories :=
            categories w +++
              [{| category_id := next_id w;
                  branch := b;
                  category_slug := b;
                  components := [] |}];
          next_id := N.succ (next_id w);
          files := files w;
          pull := pull w;
          repository := repository w;
          untranslated := untranslated w |})
  end.

(** Modelled from the spec: [findCategoryForBranch(name) -> {id, slug} |
    absent]. *)
Definition findCategoryForBranch (b : string) (w : World) : option Found.t :=
  match find_branch b (categories w) with
  | Some c =>
      Some {| Found.id := category_id c; Found.slug := category_slug c |}
  | None => None
  end.

(** Modelled from the spec: [removeCategory(id)] deletes the category
    (and with it its components). *)
Definition removeCategory (i : CategoryId) (w : World) : World :=
  with_categories w
    (filter (fun c => negb (N.eqb (category_id c) i)) (categories w)).

(** Modelled from the spec: the component a creation call asks for, bound
    to the repository, or linked when [repo] is an internal reference. *)
Definition requested (args : Create.t) : Component.t :=
  {| Component.name := Create.name args;
     Component.slug := Create.name args;
     Component.filemask := Create.fileMask args;
     Component.template := Create.source args;
     Component.linked_component :=
       if startsWith "weblate://" (Create.repo args)
       then Some (Create.repo args) else None |}.

Definition same_name (n : string) (c : Component.t) : bool :=
  String.eqb (Component.name c) n.

(** Modelled from the spec: creation adds the component to its category;
    when the name is taken the existing component is returned, updated
    first if the call says "update if exists". *)
Definition createComponent (args : Create.t) (w : World)
  : Component.t * World :=
  let existing :=
    find (same_name (Create.name args))
         (components_of (Create.categoryId args) w) in
  match existing, Create.updateIfExist args with
  | Some c, Some true =>
      (requested args,
       with_categories w
         (update_components (Create.categoryId args)
            (map (fun c' => if same_name (Create.name args) c'
                            then requested args else c'))
            (categories w)))
  | Some c, _ => (c, w)
  | None, _ =>
      (requested args,
       with_categories w
         (update_components (Create.categoryId args)
            (fun cs => cs +++ [requested args])
            (categories w)))
  end.

(** Modelled from the spec: the main component is the one with no
    [linked_component]. *)
Definition getMainComponentInCategory (i : CategoryId) (w : World)
  : option Component.t :=
  find (fun c => match Component.linked_component c with
                 | Some _ => false
                 | None => true
                 end) (components_of i w).

(** Modelled from the spec: the name under which a discovered group lives
    on the platform, as the handler of the mode created it. *)
Definition platform_name (config : Configuration) (c : ComponentInCode)
  : string :=
  match mode config with
  | VALIDATE_PULL_REQUEST =>
      name c ++ "__" ++ template_number (pullRequestNumber config)
  | _ => name c
  end.

(** Modelled from the spec: "delete every PlatformComponent whose name is
    not backed by a currently-discovered ResourceGroup" *)
Definition removeMissingComponents (config : Configuration)
           (i : CategoryId) (componentsInCode : list ComponentInCode)
           (w : World) : World :=
  let backed := map (platform_name config) componentsInCode in
  with_categories w
    (update_components i
       (filter (fun c => existsb (String.eqb (Component.name c)) backed))
       (categories w)).

(** Modelled from the spec: the answers of the platform, of the logic
    helpers and of the GitHub client; resource discovery runs
    [resolveComponents] on the files of the repository. *)
Definition env : Env World :=
  fun c =>
    match c return World -> result (ret c) * World with
    | GetOctokit token =>
        fun w =>
          (if String.eqb token ""
           then Err (Error "Parameter token or opts.auth is required")
           else Ok tt, w)
    | CreateCategoryForBranch b =>
        fun w => let '(r, w') := createCategoryForBranch b w in (Ok r, w')
    | FindCategoryForBranch b =>
        fun w => (Ok (findCategoryForBranch b w), w)
    | RemoveCategory i => fun w => (Ok tt, removeCategory i w)
    | CreateComponent args =>
        fun w => let '(r, w') := createComponent args w in (Ok r, w')
    | GetComponentsInCategory i => fun w => (Ok (components_of i w), w)
    | GetMainComponentInCategory i =>
        fun w => (Ok (getMainComponentInCategory i w), w)
    | WaitComponentsTasks _ _ => fun w => (Ok tt, w)
    | PullComponentRemoteChanges _ _ => fun w => (Ok tt, w)
    | PullRemoteChanges _ _ _ => fun w => (Ok (pull w), w)
    | RemoveMissingComponents config i _ componentsInCode =>
        fun w => (Ok tt, removeMissingComponents config i componentsInCode w)
    | GetComponentRepositoryErrors _ _ _ => fun w => (Ok (repository w), w)
    | GetUntranslatedComponentsError _ _ => fun w => (Ok (untranslated w), w)
    | ResolveComponents keysetsPath mainLanguage =>
        fun w =>
          (snd (resolveComponents (files w) keysetsPath mainLanguage), w)
    | CreateComment _ _ => fun w => (Ok tt, w)
    end.



End Platform.

(** ** Concrete configurations and platforms *)

Definition trunk_config : Configuration :=
  {| mode := SYNC_MASTER;
     branchName := "master";
     masterBranch := "master";
     keysetsPath := "src/i18n-keysets";
     mainLanguage := "en";
     gitRepo := "git@github.com:org/app.git";
     project := "app";
     githubToken := "ghs_token";
     pullRequestNumber := None;
     pullRequestAuthor := None |}.

Definition pull_request_config : Configuration :=
  {| mode := VALIDATE_PULL_REQUEST;
     branchName := "feature";
     masterBranch := "master";
     keysetsPath := "src/i18n-keysets";
     mainLanguage := "en";
     gitRepo := "git@github.com:org/app.git";
     project := "app";
     githubToken := "ghs_token";
     pullRequestNumber := Some 42%N;
     pullRequestAuthor := Some "octocat" |}.


Definition healthy : RepositoryErrors :=
  {| mergeFailureError := None;
     needsCommitError := None;
     needsPushError := None |}.

Definition conflicting : RepositoryErrors :=
  {| mergeFailureError := Some "Merge failed: conflict in en.json";
     needsCommitError := Some "Repository has uncommitted changes";
     needsPushError := Some "Repository has unpushed commits" |}.

Definition uncommitted : RepositoryErrors :=
  {| mergeFailureError := None;
     needsCommitError := Some "Repository has uncommitted changes";
     needsPushError := None |}.

(** A platform without any category; the repository holds the groups
    [component1] and [component2]. *)
Definition empty_platform : Platform.World :=
  {| Platform.categories := [];
     Platform.next_id := 1%N;
     Platform.files := fs_direct;
     Platform.pull := {| mergeFailureMessage := None |};
     Platform.repository := healthy;
     Platform.untranslated := None |}.

Definition reporting (errors : RepositoryErrors) (w : Platform.World)
  : Platform.World :=
  {| Platform.categories := Platform.categories w;
     Platform.next_id := Platform.next_id w;
     Platform.files := Platform.files w;
     Platform.pull := Platform.pull w;
     Platform.repository := errors;
     Platform.untranslated := Platform.untranslated w |}.

Definition holding (fs : FileSystem) (w : Platform.World) : Platform.World :=
  {| Platform.categories := Platform.categories w;
     Platform.next_id := Platform.next_id w;
     Platform.files := fs;
     Platform.pull := Platform.pull w;
     Platform.repository := Platform.repository w;
     Platform.untranslated := Platform.untranslated w |}.

(** The platform after the trunk was synchronised once. *)
Definition synced_platform : Platform.World :=
  final (run Platform.env (syncMaster trunk_config) empty_platform).

(** The platform after pull request 42 was validated once. *)
Definition opened_platform : Platform.World :=
  final (run Platform.env (validatePullRequest pull_request_config)
             synced_platform).

(** The three handlers, run on the model. *)
Definition trunk_run (w : Platform.World) :=
  run Platform.env (syncMaster trunk_config) w.
Definition pull_request_run (w : Platform.World) :=
  run Platform.env (validatePullRequest pull_request_config) w.

(** A repository whose keysets directory holds only [component1]. *)
Definition fs_single : FileSystem :=
  {| cwd := "/test/project";
     glob := fun _ => Ok [];
     readdir := fun _ => Ok [dir_entry "component1"; file_entry "README.md"] |}.

(** 'should return empty array when no directories found' *)
Definition fs_no_groups : FileSystem :=
  {| cwd := "/test/project";
     glob := fun _ => Ok [];
     readdir := fun _ => Ok [file_entry "file1.json"; file_entry "file2.json"] |}.

(** ** Observations on a run *)

(** The first event on which [f] answers, with what comes after it. *)
Fixpoint after_first {X : Type} (f : event -> option X) (t : trace)
  : option (X * trace) :=
  match t with
  | [] => None
  | e :: t' =>
      match f e with
      | Some x => Some (x, t')
      | None => after_first f t'
      end
  end.

(** The call an event is about. *)
Definition called (e : event) : option call :=
  match e with
  | Called c _ => Some c
  | Told _ => None
  end.

(** The errors reported by a completed repository health check. *)
Definition health_report (e : event) : option RepositoryErrors :=
  match e with
  | Called c r =>
      match c return result (ret c) -> option RepositoryErrors with
      | GetComponentRepositoryErrors _ _ _ =>
          fun r => match r with
                   | Ok errors => Some errors
                   | Err _ => None
                   end
      | _ => fun _ => None
      end r
  | Told _ => None
  end.

(** The health check of a run: what it reported and what the handler did
    afterwards. *)
Definition health_check (t : trace) : option (RepositoryErrors * trace) :=
  after_first health_report t.

(** The messages with which the run was marked failed. *)
Definition failures (t : trace) : list string :=
  flat_map (fun e => match e with
                     | Told (SetFailed message) => [message]
                     | _ => []
                     end) t.

(** The warnings logged by the handler. *)
Definition warned (t : trace) : list string :=
  flat_map (fun e => match e with
                     | Told (ConsoleWarn message) => [message]
                     | _ => []
                     end) t.

Definition is_createComponent (e : event) : bool :=
  match called e with
  | Some (CreateComponent _) => true
  | _ => false
  end.

Definition is_failure (e : event) : bool :=
  match e with
  | Told (SetFailed _) => true
  | _ => false
  end.

Definition not_removal (e : event) : bool :=
  match called e with
  | Some (RemoveMissingComponents _ _ _ _) => false
  | _ => true
  end.

(** The arguments of the component-creation calls, in order. *)
Definition created (t : trace) : list Create.t :=
  flat_map (fun e => match called e with
                     | Some (CreateComponent args) => [args]
                     | _ => []
                     end) t.

(** The pull-request comments posted (number and body), in order. *)
Definition comments (t : trace) : list (option N * string) :=
  flat_map (fun e => match called e with
                     | Some (CreateComment n body) => [(n, body)]
                     | _ => []
                     end) t.

(** The categories whose components were listed, in order. *)
Definition listings (t : trace) : list CategoryId :=
  flat_map (fun e => match called e with
                     | Some (GetComponentsInCategory i) => [i]
                     | _ => []
                     end) t.

(** The categories whose removal was requested, in order. *)
Definition removals (t : trace) : list CategoryId :=
  flat_map (fun e => match called e with
                     | Some (RemoveCategory i) => [i]
                     | _ => []
                     end) t.

(** The answer of a completed [createCategoryForBranch]. *)
Definition category_report (e : event) : option Category.t :=
  match e with
  | Called c r =>
      match c return result (ret c) -> option Category.t with
      | CreateCategoryForBranch _ =>
          fun r => match r with
                   | Ok category => Some category
                   | Err _ => None
                   end
      | _ => fun _ => None
      end r
  | Told _ => None
  end.

(** The answer of a completed [findCategoryForBranch]. *)
Definition lookup_report (e : event) : option (option Found.t) :=
  match e with
  | Called c r =>
      match c return result (ret c) -> option (option Found.t) with
      | FindCategoryForBranch _ =>
          fun r => match r with
                   | Ok found => Some found
                   | Err _ => None
                   end
      | _ => fun _ => None
      end r
  | Told _ => None
  end.

(** The answer of a completed [resolveComponents]. *)
Definition discovery_report (e : event) : option (list ComponentInCode) :=
  match e with
  | Called c r =>
      match c return result (ret c) -> option (list ComponentInCode) with
      | ResolveComponents _ _ =>
          fun r => match r with
                   | Ok components => Some components
                   | Err _ => None
                   end
      | _ => fun _ => None
      end r
  | Told _ => None
  end.

(** The category the run works on, as [createCategoryForBranch] gave it. *)
Definition category_of (t : trace) : option Category.t :=
  option_map fst (after_first category_report t).

(** What the first category lookup of the run found. *)
Definition lookup_of (t : trace) : option (option Found.t) :=
  option_map fst (after_first lookup_report t).

(** What resource discovery returned, and the reconciliation and later
    steps that followed it. *)
Definition discovery (t : trace) : option (list ComponentInCode * trace) :=
  after_first discovery_report t.

(** The failures that no successful pull-request comment with the same
    body immediately precedes. *)
Fixpoint uncommented_failures (previous : option event) (t : trace)
  : list string :=
  match t with
  | [] => []
  | e :: t' =>
      match e with
      | Told (SetFailed message) =>
          match previous with
          | Some (Called (CreateComment _ body) (Ok _)) =>
              if String.eqb body message then [] else [message]
          | _ => [message]
          end
      | _ => []
      end +++ uncommented_failures (Some e) t'
  end.

(** The two events just before removal is requested, with the category
    being cleaned. *)
Fixpoint removal_guard (before2 before1 : option event) (t : trace)
  : option (option event * option event * CategoryId) :=
  match t with
  | [] => None
  | e :: t' =>
      match called e with
      | Some (RemoveMissingComponents _ i _ _) => Some (before2, before1, i)
      | _ => removal_guard before1 (Some e) t'
      end
  end.

(** The barrier in force when removal is requested: the names the latest
    [waitComponentsTasks] was called with, the category being cleaned, and
    the state of the environment at that moment. *)
Fixpoint barrier_at_removal {W : Type} (waited : option (list string))
         (h : list (W * event))
  : option (option (list string) * CategoryId * W) :=
  match h with
  | [] => None
  | (w, e) :: h' =>
      match called e with
      | Some (WaitComponentsTasks names _) =>
          barrier_at_removal (Some names) h'
      | Some (RemoveMissingComponents _ i _ _) => Some (waited, i, w)
      | _ => barrier_at_removal waited h'
      end
  end.

(** ** Statements of the specification that the handlers do not meet

    Each is written as the specification words it; it is refuted below and
    followed by the statement that does hold. *)

(** "UncommittedChanges: non-fatal; logged as a warning; run still
    succeeds", for the handler of mode [m]. *)
Definition uncommitted_changes_tolerated (m : ActionMode) : Prop :=
  forall config t o errors rest message,
    path (modeToHandler m config) t o ->
    health_check t = Some (errors, rest) ->
    truthy (mergeFailureError errors) = None ->
    truthy (needsCommitError errors) = Some message ->
    truthy (needsPushError errors) = None ->
    warned rest <> [] /\ failures t = [] /\ o = Ok tt.

(** "Every fatal condition that occurs inside PR-mode flow must be mirrored
    to a PR comment before the run is marked failed." *)
Definition every_failure_commented : Prop :=
  forall config t o,
    path (validatePullRequest config) t o ->
    uncommented_failures None t = [].

(** "creation calls pass an 'update if exists' flag" when
    "wasRecentlyCreated is false". *)
Definition update_flag_when_category_existed : Prop :=
  forall config t o category components rest,
    path (validatePullRequest config) t o ->
    category_of t = Some category ->
    discovery t = Some (components, rest) ->
    Forall (fun args =>
              Create.updateIfExist args
              = Some (negb (Category.wasRecentlyCreated category)))
           (created rest).

(** ** The naming rule of the specification, for comparison

    "the path segment immediately following a well-known anchor segment
    (the segment after a directory literally named projects), falling back
    to the matched directory's own parent name if the anchor is absent" *)

Fixpoint after_projects (segments : list string) : option string :=
  match segments with
  | [] => None
  | s :: rest =>
      match rest with
      | next :: _ =>
          if String.eqb s "projects" then Some next else after_projects rest
      | [] => None
      end
  end.

Definition parent_of (segments : list string) : option string :=
  match rev segments with
  | _ :: parent :: _ => Some parent
  | _ => None
  end.

Definition parentSegment (dir : string) : option string :=
  let segments := split Path.sep dir in
  match after_projects segments with
  | Some p => Some p
  | None => parent_of segments
  end.

(** A segment that [path.join] keeps as it is. *)
Definition plain (s : string) : bool :=
  negb (String.eqb s "") && negb (String.eqb s ".")
  && negb (String.eqb s "..") && negb (includes "/" s).

(** A relative path made of such segments. *)
Definition plain_path (p : string) : bool :=
  forallb plain (split Path.sep p).





(** ** A statement of the specification that resource discovery does not
    meet

    It is written as the specification words it; it is refuted below and
    followed by the statement that does hold. *)


(** ** Resource discovery, directory by directory *)

(** The groups a matched directory contributes: those of its listing when
    it can be read, none otherwise. *)
Definition readable_groups (fs : FileSystem) (mainLanguage dir : string)
  : list ComponentInCode :=
  match readdir fs (Path.resolve (cwd fs) dir) with
  | Ok dirents => dirComponents mainLanguage dir dirents
  | Err _ => []
  end.

(** The warning a matched directory gives rise to when it cannot be
    read. *)
Definition read_failure (fs : FileSystem) (dir : string)
  : list (string * JsError) :=
  match readdir fs (Path.resolve (cwd fs) dir) with
  | Ok _ => []
  | Err error => [("  ⚠️ Failed to read directory " ++ dir ++ ":", error)]
  end.

(** The names a matched directory contributes. *)
Definition readable_names (fs : FileSystem) (dir : string) : list string :=
  match readdir fs (Path.resolve (cwd fs) dir) with
  | Ok dirents =>
      map (fun d => parentDirName dir ++ "_" ++ dirent_name d)
          (filter visible_directory dirents)
  | Err _ => []
  end.

(** ** Further observations on a run *)

(** The message of a call that marks the run failed. *)
Definition failure_report (e : event) : option string :=
  match e with
  | Told (SetFailed message) => Some message
  | _ => None
  end.

(** The first time the run is marked failed, and what follows. *)
Definition first_failure (t : trace) : option (string * trace) :=
  after_first failure_report t.

(** The answer of a completed [pullRemoteChanges]. *)
Definition pull_report (e : event) : option PullResult :=
  match e with
  | Called c r =>
      match c return result (ret c) -> option PullResult with
      | PullRemoteChanges _ _ _ =>
          fun r => match r with
                   | Ok pulled => Some pulled
                   | Err _ => None
                   end
      | _ => fun _ => None
      end r
  | Told _ => None
  end.

(** The pull of the run: what it reported and what the handler did
    afterwards. *)
Definition pull_of (t : trace) : option (PullResult * trace) :=
  after_first pull_report t.

(** The categories whose remote changes were pulled, in order. *)
Definition pulls (t : trace) : list CategoryId :=
  flat_map (fun e => match called e with
                     | Some (PullRemoteChanges _ i _) => [i]
                     | _ => []
                     end) t.

(** The components whose remote changes were pulled one by one. *)
Definition component_pulls (t : trace) : list string :=
  flat_map (fun e => match called e with
                     | Some (PullComponentRemoteChanges n _) => [n]
                     | _ => []
                     end) t.

(** The answer of a completed [getComponentsInCategory]. *)
Definition listing_report (e : event) : option (list Component.t) :=
  match e with
  | Called c r =>
      match c return result (ret c) -> option (list Component.t) with
      | GetComponentsInCategory _ =>
          fun r => match r with
                   | Ok components => Some components
                   | Err _ => None
                   end
      | _ => fun _ => None
      end r
  | Told _ => None
  end.

(** The first listing of a category, and what the handler did with it. *)
Definition listing_of (t : trace) : option (list Component.t * trace) :=
  after_first listing_report t.

(** [({linked_component}) => !linked_component] *)
Definition unlinked (c : Component.t) : bool :=
  match truthy (Component.linked_component c) with
  | Some _ => false
  | None => true
  end.

(** [masterComponents.find(...) || masterComponents[0]] (index.ts, lines
    163-165), as it stands in [validatePullRequest]. *)
Definition mainMasterComponent (masterComponents : list Component.t)
  : option Component.t :=
  match find unlinked masterComponents with
  | Some c => Some c
  | None => hd_error masterComponents
  end.

(** The resource under which a trunk component is copied for the pull
    request. *)
Definition copied_resource (config : Configuration) (c : Component.t)
  : string * string * string :=
  (Component.name c ++ "__" ++ template_number (pullRequestNumber config),
   Component.filemask c, Component.template c).

(** A creation that binds the component to the git repository itself. *)
Definition bound (args : Create.t) : bool :=
  match Create.branch args with
  | Some _ => true
  | None => false
  end.

(** A creation linked to another component of the platform. *)
Definition linked (args : Create.t) : Prop :=
  bound args = false
  /\ startsWith "weblate://" (Create.repo args) = true
  /\ Create.repoForUpdates args = None.

(** The component the platform answers to a creation bound to the git
    repository. *)
Definition owner_report (e : event) : option Component.t :=
  match e with
  | Called c r =>
      match c return result (ret c) -> option Component.t with
      | CreateComponent args =>
          fun r => match r with
                   | Ok component => if bound args then Some component
                                     else None
                   | Err _ => None
                   end
      | _ => fun _ => None
      end r
  | Told _ => None
  end.

(** The first component bound to the git repository, and what followed its
    creation. *)
Definition owner_of (t : trace) : option (Component.t * trace) :=
  after_first owner_report t.

(** The answer of a completed [getMainComponentInCategory]. *)
Definition main_report (e : event) : option (option Component.t) :=
  match e with
  | Called c r =>
      match c return result (ret c) -> option (option Component.t) with
      | GetMainComponentInCategory _ =>
          fun r => match r with
                   | Ok found => Some found
                   | Err _ => None
                   end
      | _ => fun _ => None
      end r
  | Told _ => None
  end.

(** [(await weblate.getMainComponentInCategory(...)) ?? firstWeblateComponent]
    in the trunk handler (index.ts, lines 63-66); the pull-request handler
    uses [firstWeblateComponent] itself. *)
Definition main_component (m : ActionMode) (first : Component.t)
           (rest : trace) : Component.t :=
  match m with
  | SYNC_MASTER =>
      match option_map fst (after_first main_report rest) with
      | Some (Some found) => found
      | _ => first
      end
  | _ => first
  end.

(** The components whose repository health was checked, with the category
    slug passed along. *)
Definition health_checks (t : trace) : list (string * string) :=
  flat_map (fun e => match called e with
                     | Some (GetComponentRepositoryErrors n s _) => [(n, s)]
                     | _ => []
                     end) t.

(** The category (identifier, slug) that a call other than a creation or a
    listing is directed at. *)
Definition addressed (e : event) : list (option CategoryId * string) :=
  match called e with
  | Some (WaitComponentsTasks _ s) => [(None, s)]
  | Some (PullComponentRemoteChanges _ s) => [(None, s)]
  | Some (PullRemoteChanges _ i s) => [(Some i, s)]
  | Some (RemoveMissingComponents _ i s _) => [(Some i, s)]
  | Some (GetComponentRepositoryErrors _ s _) => [(None, s)]
  | Some (GetUntranslatedComponentsError _ s) => [(None, s)]
  | _ => []
  end.

(** The lists of groups that the removal of missing components was given. *)
Definition kept (t : trace) : list (list ComponentInCode) :=
  flat_map (fun e => match called e with
                     | Some (RemoveMissingComponents _ _ _ groups) => [groups]
                     | _ => []
                     end) t.

(** The groups handed to a call of [removeMissingComponents], whatever
    its outcome. *)
Definition removal_report (e : event) : option (list ComponentInCode) :=
  match called e with
  | Some (RemoveMissingComponents _ _ _ groups) => Some groups
  | _ => None
  end.

(** The removal of missing components: the groups it was given and what
    the handler did afterwards. *)
Definition removal_of (t : trace) : option (list ComponentInCode * trace) :=
  after_first removal_report t.

(** The branch names for which a category was requested, in order. *)
Definition category_requests (t : trace) : list string :=
  flat_map (fun e => match called e with
                     | Some (CreateCategoryForBranch b) => [b]
                     | _ => []
                     end) t.

(** The branch names whose category was looked up, in order. *)
Definition lookups (t : trace) : list string :=
  flat_map (fun e => match called e with
                     | Some (FindCategoryForBranch b) => [b]
                     | _ => []
                     end) t.

(** The component a completed creation answered. *)
Definition answer (e : event) : list Component.t :=
  match e with
  | Called c r =>
      match c return result (ret c) -> list Component.t with
      | CreateComponent _ =>
          fun r => match r with
                   | Ok component => [component]
                   | Err _ => []
                   end
      | _ => fun _ => []
      end r
  | Told _ => []
  end.

(** The components that the creations of a run answered, in order. *)
Definition answers (t : trace) : list Component.t := flat_map answer t.

(** The lists of names that [waitComponentsTasks] was called with. *)
Definition waits (t : trace) : list (list string) :=
  flat_map (fun e => match called e with
                     | Some (WaitComponentsTasks names _) => [names]
                     | _ => []
                     end) t.

(** The lists of components whose translation was checked. *)
Definition untranslated_checks (t : trace) : list (list Component.t) :=
  flat_map (fun e => match called e with
                     | Some (GetUntranslatedComponentsError components _) =>
                         [components]
                     | _ => []
                     end) t.

(** The values of the promises of a settled fan-out that were
    fulfilled. *)
Fixpoint fulfilled {A : Type} (rs : list (result A)) : list A :=
  match rs with
  | [] => []
  | Ok a :: rs' => a :: fulfilled rs'
  | Err _ :: rs' => fulfilled rs'
  end.

(** The resource a creation asks the platform to track: name, file mask
    and source file. *)
Definition resource_of (args : Create.t) : string * string * string :=
  (Create.name args, Create.fileMask args, Create.source args).

(** The name under which the handler of mode [m] creates a discovered
    group (index.ts, lines 52, 71, 223 and 241). *)
Definition created_name (m : ActionMode) (config : Configuration)
           (c : ComponentInCode) : string :=
  match m with
  | VALIDATE_PULL_REQUEST =>
      name c ++ "__" ++ template_number (pullRequestNumber config)
  | _ => name c
  end.

(** The resource the handler of mode [m] asks for a discovered group. *)
Definition expected_resource (m : ActionMode) (config : Configuration)
           (c : ComponentInCode) : string * string * string :=
  (created_name m config c, fileMask c, source c).

(** What follows the event an observation found, if it found one. *)
Definition remainder {X : Type} (found : option (X * trace)) : trace :=
  match found with
  | Some (_, rest) => rest
  | None => []
  end.

(** The groups of the repository of [fs_direct]. *)
Definition keyset_groups : list ComponentInCode :=
  [ {| name := "component1";
       source := "src/i18n-keysets/component1/en.json";
       fileMask := "src/i18n-keysets/component1/*.json" |};
    {| name := "component2";
       source := "src/i18n-keysets/component2/en.json";
       fileMask := "src/i18n-keysets/component2/*.json" |} ].

(** The components of the trunk once it was synchronised. *)
Definition trunk_components : list Component.t :=
  [ {| Component.name := "component1";
       Component.slug := "component1";
       Component.filemask := "src/i18n-keysets/component1/*.json";
       Component.template := "src/i18n-keysets/component1/en.json";
       Component.linked_component := None |};
    {| Component.name := "component2";
       Component.slug := "component2";
       Component.filemask := "src/i18n-keysets/component2/*.json";
       Component.template := "src/i18n-keysets/component2/en.json";
       Component.linked_component :=
         Some "weblate://app/master/component1" |} ].

(** A listing without any visible directory. *)
Definition nothing_visible (dirents : list Dirent) : bool :=
  forallb (fun d => negb (visible_directory d)) dirents.

(** A repository with two project roots whose prefixes and keysets collide
    once the names are joined by an underscore. *)
Definition fs_colliding : FileSystem :=
  {| cwd := "/test/project";
     glob := fun _ => Ok ["projects/a_b/keysets"; "projects/a/keysets"];
     readdir := fun p =>
       if String.eqb p "/test/project/projects/a_b/keysets"
       then Ok [dir_entry "c"]
       else Ok [dir_entry "b_c"] |}.

(** A repository in which globbing itself fails. *)
Definition fs_unglobbable : FileSystem :=
  {| cwd := "/test/project";
     glob := fun _ => Err (Error "EMFILE: too many open files");
     readdir := fun _ => Err (Error "ENOENT: no such file or directory") |}.

(** A platform whose trunk pull ends in a merge conflict. *)
Definition conflicting_pull (w : Platform.World) : Platform.World :=
  {| Platform.categories := Platform.categories w;
     Platform.next_id := Platform.next_id w;
     Platform.files := Platform.files w;
     Platform.pull :=
       {| mergeFailureMessage := Some "Merge failed on pull" |};
     Platform.repository := Platform.repository w;
     Platform.untranslated := Platform.untranslated w |}.

(** A platform on which some components have no translated string. *)
Definition untranslated_platform (w : Platform.World) : Platform.World :=
  {| Platform.categories := Platform.categories w;
     Platform.next_id := Platform.next_id w;
     Platform.files := Platform.files w;
     Platform.pull := Platform.pull w;
     Platform.repository := Platform.repository w;
     Platform.untranslated := Some "Untranslated components: component2__42" |}.

Definition unpushed : RepositoryErrors :=
  {| mergeFailureError := None;
     needsCommitError := None;
     needsPushError := Some "Repository has unpushed commits" |}.

(** * Properties *)

(** ** The tests of [src/utils.test.ts], replayed *)

Example test_direct_path :
  snd (resolveComponents fs_direct "src/i18n-keysets" "en")
  = Ok [ {| name := "component1";
            source := "src/i18n-keysets/component1/en.json";
            fileMask := "src/i18n-keysets/component1/*.json" |};
         {| name := "component2";
            source := "src/i18n-keysets/component2/en.json";
            fileMask := "src/i18n-keysets/component2/*.json" |} ].
Proof. reflexivity. Qed.

Example test_glob_prefix :
  snd (resolveComponents fs_projects "projects/*/src/i18n-keysets" "en")
  = Ok [ {| name := "project-a_component1";
            source := "projects/project-a/src/i18n-keysets/component1/en.json";
            fileMask := "projects/project-a/src/i18n-keysets/component1/*.json" |};
         {| name := "project-b_component2";
            source := "projects/project-b/src/i18n-keysets/component2/en.json";
            fileMask := "projects/project-b/src/i18n-keysets/component2/*.json" |} ].
Proof. reflexivity. Qed.

Example test_glob_read_error :
  let '(console, r) :=
    resolveComponents fs_denied "projects/*/src/i18n-keysets" "en" in
  option_map (map name) (match r with Ok l => Some l | Err _ => None end)
  = Some ["project-a_component1"]
  /\ warnings console
     = [("  ⚠️ Failed to read directory projects/project-b/src/i18n-keysets:",
         Error "Permission denied")].
Proof. split; reflexivity. Qed.

(** ** Strings and paths *)

Lemma split_nonempty sep s : split sep s <> [].
Proof.
  destruct s as [| c s]; cbn; [discriminate |].
  destruct (Ascii.eqb c sep); [discriminate |].
  destruct (split sep s); discriminate.
Qed.

Lemma split_app sep a b :
  split sep (a ++ String sep b) = split sep a +++ split sep b.
Proof.
  induction a as [| c a IH]; cbn.
  - rewrite Ascii.eqb_refl. reflexivity.
  - destruct (Ascii.eqb c sep); rewrite IH; [reflexivity |].
    pose proof (split_nonempty sep a) as Hne.
    destruct (split sep a); [contradiction | reflexivity].
Qed.

Lemma concat_cons sep c h t :
  String.concat sep (String c h :: t) = String c (String.concat sep (h :: t)).
Proof. destruct t; reflexivity. Qed.

Lemma join_split s : Js.join "/" (split Path.sep s) = s.
Proof.
  unfold Js.join. induction s as [| c s IH]; cbn; [reflexivity |].
  pose proof (split_nonempty Path.sep s) as Hne.
  destruct (Ascii.eqb c Path.sep) eqn:Hc.
  - apply Ascii.eqb_eq in Hc. subst c.
    destruct (split Path.sep s) as [| h t]; [contradiction |].
    cbn in *. rewrite IH. reflexivity.
  - destruct (split Path.sep s) as [| h t]; [contradiction |].
    rewrite concat_cons, IH. reflexivity.
Qed.

Lemma includes_sep_cons c s :
  includes "/" (String c s) = Ascii.eqb c Path.sep || includes "/" s.
Proof.
  cbn [includes String.prefix].
  destruct (ascii_dec "/"%char c) as [<- | Hne].
  - rewrite Ascii.eqb_refl. destruct s; reflexivity.
  - replace (Ascii.eqb c Path.sep) with false; [reflexivity |].
    symmetry. apply Ascii.eqb_neq. unfold Path.sep. congruence.
Qed.

Lemma split_without_sep s :
  includes "/" s = false -> split Path.sep s = [s].
Proof.
  induction s as [| c s IH]; [reflexivity |].
  rewrite includes_sep_cons. intros H. apply orb_false_iff in H.
  destruct H as [Hc Hs]. cbn. rewrite Hc, (IH Hs). reflexivity.
Qed.

Lemma plain_without_sep s : plain s = true -> includes "/" s = false.
Proof.
  unfold plain. intros H. repeat (apply andb_true_iff in H; destruct H as [H ?]).
  apply negb_true_iff. assumption.
Qed.

Lemma normalize_plain allow l :
  forallb plain l = true ->
  forall stack,
    fold_left (Path.normalize_step allow) l stack = rev l +++ stack.
Proof.
  induction l as [| s l IH]; intros Hl stack; [reflexivity |].
  cbn in Hl. apply andb_true_iff in Hl. destruct Hl as [Hs Hl].
  cbn [fold_left rev]. rewrite <- app_assoc. cbn [app].
  rewrite <- (IH Hl). f_equal.
  unfold plain in Hs.
  repeat (apply andb_true_iff in Hs; destruct Hs as [Hs ?]).
  unfold Path.normalize_step.
  repeat match goal with
         | H : negb _ = true |- _ => apply negb_true_iff in H; try rewrite H
         end.
  reflexivity.
Qed.

Lemma isAbsolute_split p :
  Path.isAbsolute p = true -> exists t, split Path.sep p = "" :: t.
Proof.
  destruct p as [| c p]; [discriminate |].
  unfold Path.isAbsolute. intros H. cbn [split]. rewrite H. eauto.
Qed.

Lemma endsWithSep_split p :
  Path.endsWithSep p = true -> last (split Path.sep p) "x" = "".
Proof.
  induction p as [| c p IH]; [discriminate |].
  cbn [Path.endsWithSep]. destruct p as [| c' p'].
  - intros H. cbn [split]. rewrite H. reflexivity.
  - intros H. specialize (IH H).
    pose proof (split_nonempty Path.sep (String c' p')) as Hne.
    pose proof (join_split (String c' p')) as Hj.
    change (split Path.sep (String c (String c' p')))
      with (if Ascii.eqb c Path.sep
            then "" :: split Path.sep (String c' p')
            else match split Path.sep (String c' p') with
                 | h :: t => String c h :: t
                 | [] => [String c ""]
                 end).
    destruct (split Path.sep (String c' p')) as [| h [| h' t]];
      [contradiction | |].
    + cbn in IH. subst h. cbn in Hj. discriminate Hj.
    + destruct (Ascii.eqb c Path.sep); exact IH.
Qed.

Lemma forallb_last {A : Type} (f : A -> bool) l d :
  forallb f l = true -> l <> [] -> f (last l d) = true.
Proof.
  induction l as [| x [| y l] IH]; intros H Hne; [contradiction | |].
  - cbn in *. apply andb_true_iff in H. tauto.
  - cbn [forallb] in H. apply andb_true_iff in H. destruct H as [_ H].
    apply IH; [exact H | discriminate].
Qed.

(** [path.normalize] leaves a relative path of plain segments alone. *)
Lemma normalize_plain_path p :
  plain_path p = true -> Path.normalize p = p.
Proof.
  unfold plain_path. intros Hp. unfold Path.normalize.
  assert (Hne : p <> "").
  { intros ->. discriminate Hp. }
  destruct (String.eqb p "") eqn:He; [apply String.eqb_eq in He; contradiction |].
  assert (Habs : Path.isAbsolute p = false).
  { destruct (Path.isAbsolute p) eqn:Ha; [| reflexivity].
    apply isAbsolute_split in Ha. destruct Ha as (t & Ht).
    rewrite Ht in Hp. discriminate Hp. }
  assert (Htr : Path.endsWithSep p = false).
  { destruct (Path.endsWithSep p) eqn:Ht; [| reflexivity].
    apply endsWithSep_split in Ht.
    pose proof (forallb_last plain _ "x" Hp (split_nonempty _ _)) as Hl.
    rewrite Ht in Hl. discriminate Hl. }
  rewrite Habs, Htr. cbn [negb].
  assert (Hbody : Path.normalizeString p true = p).
  { unfold Path.normalizeString.
    rewrite (normalize_plain true _ Hp), app_nil_r, rev_involutive.
    apply join_split. }
  rewrite Hbody, He. reflexivity.
Qed.

Lemma plain_nonempty s : plain s = true -> String.eqb s "" = false.
Proof.
  unfold plain. intros H. repeat (apply andb_true_iff in H; destruct H as [H ?]).
  apply negb_true_iff. assumption.
Qed.

Lemma plain_path_nonempty p : plain_path p = true -> String.eqb p "" = false.
Proof.
  unfold plain_path. destruct p; [discriminate | reflexivity].
Qed.

Lemma append_nonempty a b : String.eqb a "" = false -> String.eqb (a ++ b) "" = false.
Proof. destruct a; [discriminate | reflexivity]. Qed.

(** [path.join] of a plain path and two plain segments is their
    concatenation with separators. *)
Lemma join_plain p n f :
  plain_path p = true -> plain n = true -> plain f = true ->
  Path.join [p; n; f] = p ++ "/" ++ n ++ "/" ++ f.
Proof.
  intros Hp Hn Hf. unfold Path.join. cbn [filter].
  rewrite (plain_path_nonempty p Hp), (plain_nonempty n Hn),
    (plain_nonempty f Hf). cbn [negb Js.join String.concat].
  rewrite (append_nonempty p _ (plain_path_nonempty p Hp)).
  apply normalize_plain_path. unfold plain_path.
  change ("/" ++ n ++ "/" ++ f) with (String Path.sep (n ++ String Path.sep f)).
  rewrite !split_app.
  rewrite (split_without_sep n (plain_without_sep n Hn)).
  rewrite (split_without_sep f (plain_without_sep f Hf)).
  rewrite !forallb_app. cbn. unfold plain_path in Hp.
  rewrite Hp, Hn, Hf. reflexivity.
Qed.

(** ** Resource discovery *)

Lemma warnings_app c1 c2 : warnings (c1 +++ c2) = warnings c1 +++ warnings c2.
Proof. apply flat_map_app. Qed.

Lemma visit_one fs mainLanguage components console dir :
  fst (visit fs mainLanguage (components, console) dir)
  = components +++ readable_groups fs mainLanguage dir
  /\ warnings (snd (visit fs mainLanguage (components, console) dir))
     = warnings console +++ read_failure fs dir.
Proof.
  unfold visit, readable_groups, read_failure.
  destruct (readdir fs (Path.resolve (cwd fs) dir)); cbn [fst snd];
    rewrite warnings_app; cbn [warnings flat_map app];
    rewrite ?app_nil_r; auto.
Qed.

(** The loop over the matched directories, in closed form. *)
Lemma visit_all fs mainLanguage dirs :
  forall components console,
    fst (fold_left (visit fs mainLanguage) dirs (components, console))
    = components +++ flat_map (readable_groups fs mainLanguage) dirs
    /\ warnings
         (snd (fold_left (visit fs mainLanguage) dirs (components, console)))
       = warnings console +++ flat_map (read_failure fs) dirs.
Proof.
  induction dirs as [| dir dirs IH]; intros components console.
  - cbn. rewrite !app_nil_r. auto.
  - cbn [fold_left flat_map].
    destruct (visit_one fs mainLanguage components console dir) as [Hc Hk].
    destruct (visit fs mainLanguage (components, console) dir)
      as [components1 console1].
    cbn [fst snd] in Hc, Hk. subst components1.
    destruct (IH (components +++ readable_groups fs mainLanguage dir) console1)
      as [-> ->].
    rewrite Hk, <- !app_assoc. auto.
Qed.

(** C8: for a glob pattern whose expansion succeeded, [resolveComponents]
    returns (it does not throw) whatever the reads of the matched
    directories do; its result is made of the groups of the directories that
    could be read, in order, and the console holds one warning for each
    directory that could not, with the error of its read. *)
Theorem glob_reads_are_isolated :
  forall fs pattern mainLanguage dirs,
    isGlobPattern pattern = true ->
    glob fs pattern = Ok dirs ->
    snd (resolveComponents fs pattern mainLanguage)
    = Ok (flat_map (readable_groups fs mainLanguage) dirs)
    /\ warnings (fst (resolveComponents fs pattern mainLanguage))
       = flat_map (read_failure fs) dirs.
Proof.
  intros fs pattern mainLanguage dirs Hg Hd.
  unfold resolveComponents. rewrite Hg, Hd.
  pose proof (visit_all fs mainLanguage dirs []
                [Log ["🔍 Glob pattern detected: " ++ pattern];
                 Log ["📁 Found " ++ length_of dirs
                        ++ " directories matching pattern"]]) as H.
  cbn [app] in *.
  destruct (fold_left _ dirs _) as [components console].
  cbn [fst snd] in *. destruct H as [-> H]. split; [reflexivity |].
  rewrite warnings_app, H. cbn. rewrite app_nil_r. reflexivity.
Qed.

Lemma glob_reads_are_isolated_witness :
  isGlobPattern "projects/*/src/i18n-keysets" = true
  /\ glob fs_denied "projects/*/src/i18n-keysets"
     = Ok ["projects/project-a/src/i18n-keysets";
           "projects/project-b/src/i18n-keysets"]
  /\ snd (resolveComponents fs_denied "projects/*/src/i18n-keysets" "en")
     = Ok [ {| name := "project-a_component1";
               source :=
                 "projects/project-a/src/i18n-keysets/component1/en.json";
               fileMask :=
                 "projects/project-a/src/i18n-keysets/component1/*.json" |} ]
  /\ warnings (fst (resolveComponents fs_denied
                                      "projects/*/src/i18n-keysets" "en"))
     = [("  ⚠️ Failed to read directory projects/project-b/src/i18n-keysets:",
         Error "Permission denied")].
Proof.
  split; [reflexivity |]. split; [reflexivity |].
  exact (glob_reads_are_isolated fs_denied "projects/*/src/i18n-keysets" "en"
           ["projects/project-a/src/i18n-keysets";
            "projects/project-b/src/i18n-keysets"] eq_refl eq_refl).
Defined.

Lemma indexOf_lower x l : (-1 <= indexOf x l)%Z.
Proof.
  induction l as [| y l IH]; cbn; [lia |].
  destruct (String.eqb y x); [lia |].
  destruct (indexOf x l =? -1)%Z; lia.
Qed.

Lemma at_index_cons {A : Type} (x : A) l i :
  (0 <= i)%Z -> at_index (x :: l) (i + 1) = at_index l i.
Proof.
  intros Hi. unfold at_index.
  destruct (i + 1 <? 0)%Z eqn:H1; [lia |].
  destruct (i <? 0)%Z eqn:H2; [lia |].
  replace (Z.to_nat (i + 1)) with (S (Z.to_nat i)) by lia. reflexivity.
Qed.

(** [indexOf] with the two tests of the code, against the rule of the
    specification. *)
Lemma indexOf_after_projects l :
  let i := indexOf "projects" l in
  let len := Z.of_nat (List.length l) in
  match after_projects l with
  | Some p =>
      (i =? -1)%Z = false /\ (i + 1 <? len)%Z = true
      /\ at_index l (i + 1) = Some p
  | None => (negb (i =? -1) && (i + 1 <? len))%Z = false
  end.
Proof.
  induction l as [| s l IH]; [reflexivity |].
  cbn [after_projects indexOf List.length].
  destruct l as [| next l'].
  - cbn. destruct (String.eqb s "projects"); reflexivity.
  - destruct (String.eqb s "projects") eqn:Hs.
    + repeat split. cbn [List.length]. apply Z.ltb_lt. lia.
    + cbv zeta in IH. pose proof (indexOf_lower "projects" (next :: l')) as Hlow.
      set (i := indexOf "projects" (next :: l')) in *.
      set (l := next :: l') in *.
      change (List.length (s :: l)) with (S (List.length l)).
      rewrite Nat2Z.inj_succ.
      destruct (after_projects l) as [p |].
      * destruct IH as (Hi & Hlen & Hat). rewrite Hi.
        apply Z.eqb_neq in Hi. apply Z.ltb_lt in Hlen.
        repeat split.
        -- apply Z.eqb_neq. lia.
        -- apply Z.ltb_lt. lia.
        -- rewrite at_index_cons by lia. exact Hat.
      * destruct (i =? -1)%Z eqn:Hi; [reflexivity |].
        cbn [negb andb] in *. apply Z.eqb_neq in Hi.
        apply Z.ltb_ge in IH.
        replace (i + 1 =? -1)%Z with false by (symmetry; apply Z.eqb_neq; lia).
        cbn [negb andb]. apply Z.ltb_ge. lia.
Qed.

Lemma at_index_parent (l : list string) :
  at_index l (Z.of_nat (List.length l) - 2) = parent_of l.
Proof.
  unfold parent_of. rewrite <- (rev_involutive l) at 1 2.
  destruct (rev l) as [| a [| b r]]; [reflexivity | reflexivity |].
  cbn [rev]. rewrite <- !app_assoc. cbn [app].
  rewrite length_app. cbn [List.length].
  unfold at_index.
  destruct (_ <? 0)%Z eqn:H; [apply Z.ltb_lt in H; lia |].
  replace (Z.to_nat _) with (List.length (rev r) + 0)%nat by lia.
  rewrite nth_error_app2 by lia.
  replace (_ - _)%nat with 0%nat by lia. reflexivity.
Qed.

(** The prefix computed by the code is the parent segment of the
    specification whenever that segment exists and is not empty. *)
Lemma parentDirName_parentSegment dir p :
  parentSegment dir = Some p -> p <> "" -> parentDirName dir = p.
Proof.
  unfold parentSegment, parentDirName. intros Hp Hne.
  pose proof (indexOf_after_projects (split Path.sep dir)) as H.
  cbv zeta in H.
  destruct (after_projects (split Path.sep dir)) as [q |].
  - destruct H as (Hi & Hlen & Hat). rewrite Hi, Hlen, Hat. cbn.
    congruence.
  - rewrite H, at_index_parent, Hp. cbn.
    destruct (String.eqb p "") eqn:He; [| reflexivity].
    apply String.eqb_eq in He. contradiction.
Qed.

Lemma split_single s x :
  split Path.sep s = [x] -> includes "/" s = false.
Proof.
  revert x. induction s as [| c s IH]; intros x; [reflexivity |].
  rewrite includes_sep_cons. cbn [split].
  pose proof (split_nonempty Path.sep s) as Hne.
  destruct (Ascii.eqb c Path.sep).
  - destruct (split Path.sep s); [contradiction | discriminate].
  - destruct (split Path.sep s) as [| h [| h' t]] eqn:Hs;
      [contradiction | | discriminate].
    intros _. cbn. apply (IH h). reflexivity.
Qed.

Lemma no_sep_chars s :
  includes "/" s = false ->
  Forall (fun c => Path.is_sep c = false) (list_ascii_of_string s).
Proof.
  induction s as [| c s IH]; intros H; [constructor |].
  rewrite includes_sep_cons in H. apply orb_false_iff in H.
  destruct H as [Hc Hs]. constructor; [exact Hc | auto].
Qed.

Lemma dropWhile_none {A : Type} (f : A -> bool) l :
  Forall (fun x => f x = false) l -> Path.dropWhile f l = l.
Proof. destruct 1 as [| x l Hx _]; cbn; [| rewrite Hx]; reflexivity. Qed.

Lemma dropWhile_all {A : Type} (f : A -> bool) l :
  Forall (fun x => f x = true) l -> Path.dropWhile f l = [].
Proof. induction 1 as [| x l Hx _ IH]; cbn; [| rewrite Hx]; auto. Qed.

(** The parent of a path without separator is the current directory. *)
Lemma dirname_without_sep s : includes "/" s = false -> Path.dirname s = ".".
Proof.
  intros H. apply no_sep_chars in H. unfold Path.dirname.
  destruct (list_ascii_of_string s) as [| c0 rest]; [reflexivity |].
  inversion H as [| ? ? Hc0 Hrest]; subst.
  assert (Hrev : Forall (fun c => Path.is_sep c = false) (rev rest))
    by (apply Forall_rev; exact Hrest).
  rewrite (dropWhile_none _ _ Hrev).
  rewrite dropWhile_all.
  - rewrite Hc0. reflexivity.
  - eapply Forall_impl; [| exact Hrev]. cbn. intros a ->. reflexivity.
Qed.

Lemma parentDirName_single dir :
  parentSegment dir = None -> parentDirName dir = ".".
Proof.
  unfold parentSegment, parentDirName. intros Hp.
  pose proof (indexOf_after_projects (split Path.sep dir)) as H.
  cbv zeta in H.
  destruct (after_projects (split Path.sep dir)) as [q |]; [discriminate |].
  rewrite H, at_index_parent, Hp. cbn [truthy].
  unfold parent_of in Hp.
  pose proof (split_nonempty Path.sep dir) as Hne.
  assert (Hs : exists x, split Path.sep dir = [x]).
  { destruct (rev (split Path.sep dir)) as [| a [| b r]] eqn:Hr;
      [| | discriminate]; apply (f_equal (@rev string)) in Hr;
      rewrite rev_involutive in Hr; [contradiction | eauto]. }
  destruct Hs as (x & Hx).
  rewrite (dirname_without_sep dir (split_single dir x Hx)). reflexivity.
Qed.

(** C6: for a glob pattern, every matched directory that can be read
    contributes one group per non-hidden immediate subdirectory, in listing
    order, named [<prefix>_<subdirName>]. The prefix is the parent segment of
    the specification (the segment after the first segment named
    [projects] that has a successor, otherwise the second-to-last segment
    of the match) whenever that segment exists and is not empty; when the
    match is a single segment the prefix is ["."]. *)
Theorem glob_groups_are_prefixed :
  forall fs pattern mainLanguage dirs,
    isGlobPattern pattern = true ->
    glob fs pattern = Ok dirs ->
    (exists groups,
        snd (resolveComponents fs pattern mainLanguage) = Ok groups
        /\ map name groups = flat_map (readable_names fs) dirs)
    /\ (forall dir p,
           parentSegment dir = Some p -> p <> "" -> parentDirName dir = p)
    /\ (forall dir, parentSegment dir = None -> parentDirName dir = ".").
Proof.
  intros fs pattern mainLanguage dirs Hg Hd.
  split; [| split; [exact parentDirName_parentSegment
                   | exact parentDirName_single]].
  assert (Hr := visit_all fs mainLanguage dirs []
                  [Log ["🔍 Glob pattern detected: " ++ pattern];
                   Log ["📁 Found " ++ length_of dirs
                          ++ " directories matching pattern"]]).
  unfold resolveComponents. rewrite Hg, Hd. cbn [app] in *.
  destruct (fold_left _ dirs _) as [components console].
  cbn [fst snd] in *. destruct Hr as [-> _].
  eexists; split; [reflexivity |].
  clear. induction dirs as [| dir dirs IH]; [reflexivity |].
  cbn [flat_map]. rewrite map_app, IH. f_equal.
  unfold readable_groups, readable_names, dirComponents.
  destruct (readdir fs (Path.resolve (cwd fs) dir)); [| reflexivity].
  rewrite map_map. reflexivity.
Qed.

Lemma glob_groups_are_prefixed_witness :
  isGlobPattern "projects/*/src/i18n-keysets" = true
  /\ glob fs_projects "projects/*/src/i18n-keysets"
     = Ok ["projects/project-a/src/i18n-keysets";
           "projects/project-b/src/i18n-keysets"]
  /\ parentSegment "projects/project-a/src/i18n-keysets" = Some "project-a"
  /\ (exists groups,
         snd (resolveComponents fs_projects "projects/*/src/i18n-keysets" "en")
         = Ok groups
         /\ map name groups = ["project-a_component1"; "project-b_component2"])
  /\ parentDirName "projects/project-a/src/i18n-keysets" = "project-a".
Proof.
  split; [reflexivity |]. split; [reflexivity |]. split; [reflexivity |].
  destruct (glob_groups_are_prefixed fs_projects "projects/*/src/i18n-keysets"
              "en" ["projects/project-a/src/i18n-keysets";
                    "projects/project-b/src/i18n-keysets"] eq_refl eq_refl)
    as (Hgroups & Hprefix & _).
  split; [exact Hgroups |].
  apply Hprefix; [reflexivity | discriminate].
Defined.

Lemma length_append a b :
  String.length (a ++ b) = (String.length a + String.length b)%nat.
Proof. induction a as [| c a IH]; cbn; [| rewrite IH]; reflexivity. Qed.

Lemma includes_sep_append a b :
  includes "/" (a ++ b) = includes "/" a || includes "/" b.
Proof.
  induction a as [| c a IH]; [destruct b; reflexivity |].
  change (String c a ++ b) with (String c (a ++ b)).
  rewrite !includes_sep_cons, IH, orb_assoc. reflexivity.
Qed.

(** The file name of the main language is a plain segment. *)
Lemma plain_json mainLanguage :
  includes "/" mainLanguage = false -> plain (mainLanguage ++ ".json") = true.
Proof.
  intros H. unfold plain. rewrite includes_sep_append, H.
  assert (Hlong : forall short,
             (String.length short < 5)%nat ->
             String.eqb (mainLanguage ++ ".json") short = false).
  { intros short Hs. apply String.eqb_neq. intros E.
    apply (f_equal String.length) in E. rewrite length_append in E.
    cbn in E. lia. }
  rewrite !Hlong by (cbn; lia). reflexivity.
Qed.
















(** ** Runs of composed programs *)

Lemma path_bind {A B : Type} (p : prog A) (f : A -> prog B) t o :
  path (bind p f) t o <->
  (exists a t1 t2, path p t1 (Ok a) /\ path (f a) t2 o /\ t = t1 +++ t2)
  \/ (exists e, path p t (Err e) /\ o = Err e).
Proof.
  revert t; induction p as [a | e | c k IH | m k IH]; intros t; simpl.
  - split.
    + intros H; left; exists a, [], t; auto.
    + intros [(a' & t1 & t2 & [-> Ha] & H & ->) | (e & [_ He] & _)].
      * injection Ha as <-; exact H.
      * discriminate.
  - split.
    + intros [-> ->]; right; exists e; auto.
    + intros [(a' & t1 & t2 & [_ Ha] & _) | (e' & [-> He] & ->)].
      * discriminate.
      * injection He as <-; auto.
  - split.
    + intros (r & t' & -> & H). apply IH in H.
      destruct H as [(a & t1 & t2 & H1 & H2 & ->) | (e & H1 & ->)].
      * left; exists a, (Called c r :: t1), t2; repeat split; eauto.
      * right; exists e; split; eauto.
    + intros [(a & t1 & t2 & (r & t' & -> & H1) & H2 & ->)
             | (e & (r & t' & -> & H1) & ->)];
        exists r; eexists; (split; [reflexivity |]); apply IH.
      * left; exists a, t', t2; auto.
      * right; exists e; auto.
  - split.
    + intros (t' & -> & H). apply IH in H.
      destruct H as [(a & t1 & t2 & H1 & H2 & ->) | (e & H1 & ->)].
      * left; exists a, (Told m :: t1), t2; repeat split; eauto.
      * right; exists e; split; eauto.
    + intros [(a & t1 & t2 & (t' & -> & H1) & H2 & ->)
             | (e & (t' & -> & H1) & ->)];
        eexists; (split; [reflexivity |]); apply IH.
      * left; exists a, t', t2; auto.
      * right; exists e; auto.
Qed.

Lemma path_settle {A : Type} (p : prog A) t o :
  path (settle p) t o <-> exists r, o = Ok r /\ path p t r.
Proof.
  revert t; induction p as [a | e | c k IH | m k IH]; intros t; simpl.
  - split; [intros [-> ->]; eauto | intros (r & -> & -> & ->); auto].
  - split; [intros [-> ->]; eauto | intros (r & -> & -> & ->); auto].
  - split.
    + intros (r & t' & -> & H); apply IH in H; destruct H as (r' & -> & H).
      exists r'; split; eauto.
    + intros (r' & -> & r & t' & -> & H); exists r, t'; split; auto.
      apply IH; eauto.
  - split.
    + intros (t' & -> & H); apply IH in H; destruct H as (r' & -> & H).
      exists r'; split; eauto.
    + intros (r' & -> & t' & -> & H); exists t'; split; auto.
      apply IH; eauto.
Qed.

(** Every event of [Promise.all] comes from one of the promises. *)
Lemma path_settle_all {A : Type} (P : event -> Prop) (ps : list (prog A)) :
  (forall p, In p ps -> forall t r, path p t r -> Forall P t) ->
  forall t o, path (settle_all ps) t o ->
              Forall P t /\ exists rs, o = Ok rs.
Proof.
  induction ps as [| p ps IH]; intros Hps t o H.
  - destruct H as [-> ->]; split; eauto.
  - cbn [settle_all] in H. apply path_bind in H.
    destruct H as [(r & t1 & t2 & H1 & H2 & ->) | (e & H1 & ->)].
    + apply path_settle in H1; destruct H1 as (r' & Hr & H1).
      apply path_bind in H2.
      destruct H2 as [(rs & t3 & t4 & H3 & [-> ->] & ->) | (e & H3 & ->)].
      * apply IH in H3; [| intros; eapply Hps; eauto; right; auto].
        destruct H3 as [H3 _]. split; eauto.
        apply Forall_app; split; [| apply Forall_app; split; auto].
        eapply Hps; eauto; left; auto.
      * apply IH in H3; [| intros; eapply Hps; eauto; right; auto].
        destruct H3 as [_ (rs & Hrs)]; discriminate.
    + apply path_settle in H1; destruct H1 as (r' & Hr & _); discriminate.
Qed.

Lemma path_promise_all {A : Type} (P : event -> Prop) (ps : list (prog A)) :
  (forall p, In p ps -> forall t r, path p t r -> Forall P t) ->
  forall t o, path (promise_all ps) t o -> Forall P t.
Proof.
  intros Hps t o H. unfold promise_all in H. apply path_bind in H.
  destruct H as [(rs & t1 & t2 & H1 & H2 & ->) | (e & H1 & ->)].
  - apply (path_settle_all P ps Hps) in H1. destruct H1 as [H1 _].
    apply Forall_app; split; auto.
    destruct (collect rs); destruct H2 as [-> _]; constructor.
  - apply (path_settle_all P ps Hps) in H1. tauto.
Qed.

(** A run against an environment is one of the paths of the program. *)
Lemma run_path {W A : Type} (env : Env W) (p : prog A) (w : W) :
  path p (events (run env p w)) (outcome (run env p w)).
Proof.
  unfold events, outcome.
  revert w; induction p as [a | e | c k IH | m k IH]; intros w; cbn.
  - auto.
  - auto.
  - destruct (env c w) as [r w1]. specialize (IH r w1).
    destruct (run env (k r) w1) as [[o w2] h]. cbn in *.
    exists r; eexists; eauto.
  - specialize (IH w). destruct (run env k w) as [[o w2] h]. cbn in *.
    eexists; eauto.
Qed.

Lemma path_bind_assoc {A B C : Type} (p : prog A) (f : A -> prog B)
      (g : B -> prog C) t o :
  path (bind (bind p f) g) t o <->
  path (bind p (fun x => bind (f x) g)) t o.
Proof.
  revert t; induction p as [a | e | c k IH | m k IH]; intros t; cbn.
  - reflexivity.
  - reflexivity.
  - split; intros (r & t' & -> & H); exists r, t'; split; auto; apply IH; auto.
  - split; intros (t' & -> & H); exists t'; split; auto; apply IH; auto.
Qed.

(** The events of a fan-out of component creations are creation calls. *)
Lemma createComponent_events {X : Type} (g : X -> prog Component.t) l t o :
  (forall x, In x l ->
             (exists args, g x = weblate.createComponent args)
             \/ exists e, g x = Throw e) ->
  path (promise_all (map g l)) t o ->
  Forall (fun e => is_createComponent e = true) t.
Proof.
  intros Hg. apply path_promise_all.
  intros p Hin t' r Hp. apply in_map_iff in Hin.
  destruct Hin as (x & <- & Hin).
  destruct (Hg x Hin) as [(args & Heq) | (e & Heq)]; rewrite Heq in Hp;
    cbn in Hp.
  - destruct Hp as (r0 & t'' & -> & Hp).
    destruct r0; destruct Hp as [-> _]; repeat constructor.
  - destruct Hp as [-> _]; constructor.
Qed.

(** ** Observations skip what they do not look at *)

Lemma after_first_app {X : Type} (f : event -> option X) (t1 t2 : trace) :
  Forall (fun e => f e = None) t1 ->
  after_first f (t1 +++ t2) = after_first f t2.
Proof.
  induction 1 as [| e t1 He _ IH]; cbn; [reflexivity |].
  rewrite He; exact IH.
Qed.

Lemma after_first_none {X : Type} (f : event -> option X) (t : trace) :
  Forall (fun e => f e = None) t -> after_first f t = None.
Proof.
  induction 1 as [| e t1 He _ IH]; cbn; [reflexivity |].
  rewrite He; exact IH.
Qed.

Lemma flat_map_silent {X : Type} (f : event -> list X) (t : trace) :
  Forall (fun e => f e = []) t -> flat_map f t = [].
Proof.
  induction 1 as [| e t1 He _ IH]; cbn; [reflexivity |].
  rewrite He; exact IH.
Qed.

(** The reports look at other calls than component creation. *)
Lemma reports_skip_createComponent e :
  is_createComponent e = true ->
  health_report e = None /\ category_report e = None
  /\ lookup_report e = None /\ discovery_report e = None.
Proof. destruct e as [[] r | o]; cbn; intros H; repeat split; congruence. Qed.

(** Component creations mark nothing failed, warn about nothing, post no
    comment and list no category. *)
Lemma tallies_createComponent (t : trace) :
  Forall (fun e => is_createComponent e = true) t ->
  failures t = [] /\ warned t = [] /\ comments t = [] /\ listings t = [].
Proof.
  intros H; repeat split; apply flat_map_silent;
    (eapply Forall_impl; [| exact H]);
    intros [[] r | o]; cbn; congruence.
Qed.

Lemma created_app t1 t2 : created (t1 +++ t2) = created t1 +++ created t2.
Proof. apply flat_map_app. Qed.

(** ** Stepping through a handler *)

Ltac reduce H :=
  cbn [path bind await tell setFailed console.log console.warn
       weblate.createCategoryForBranch weblate.findCategoryForBranch
       weblate.removeCategory weblate.createComponent
       weblate.getComponentsInCategory weblate.getMainComponentInCategory
       weblate.waitComponentsTasks weblate.pullComponentRemoteChanges
       pullRemoteChanges removeMissingComponents getComponentRepositoryErrors
       getUntranslatedComponentsError resolveComponents_ getOctokit
       createComment comment_and_fail] in H.

(** Turns a run of a fan-out into the fact that it only creates. *)
Ltac creates Hall :=
  apply createComponent_events in Hall;
  [| intros ? _;
     repeat match goal with
            | |- context [match ?m with _ => _ end] => destruct m
            end; eauto].

(** One step of a run [H : path p t o]: an answer of the environment, an
    output, a branch of the code, or the end. The run of a fan-out is kept
    next to the fact that it only creates. *)
Ltac step H :=
  lazymatch type of H with
  | path (bind (bind _ _) _) _ _ => apply path_bind_assoc in H
  | path (bind (promise_all _) _) _ _ =>
      let Hall := fresh "Hall" in
      let Hfan := fresh "Hfan" in
      apply path_bind in H;
      destruct H as [(? & ? & ? & Hall & H & ->) | (? & Hall & ->)];
      pose proof Hall as Hfan;
      creates Hall
  | exists r t', _ = Called _ r :: t' /\ _ =>
      let r := fresh "r" in
      destruct H as (r & ? & -> & H); destruct r
  | exists t', _ = _ :: t' /\ _ => destruct H as (? & -> & H)
  | _ = [] /\ _ = _ => destruct H as [-> ->]
  | path (match ?x with _ => _ end) _ _ => destruct x eqn:?
  | path (bind (match ?x with _ => _ end) _) _ _ => destruct x eqn:?
  end; try reduce H.

Ltac silent_report :=
  let e := fresh "e" in
  let He := fresh "He" in
  intros e He;
  destruct (reports_skip_createComponent e He) as (? & ? & ? & ?);
  assumption.

Ltac skip_creates Hh :=
  repeat match type of Hh with
         | context [after_first ?f (?x +++ ?t)] =>
             match goal with
             | Hall : Forall (fun e => is_createComponent e = true) x |- _ =>
                 rewrite (after_first_app f x t) in Hh
                   by (eapply Forall_impl; [| exact Hall]; silent_report)
             end
         | context [after_first ?f ?x] =>
             match goal with
             | Hall : Forall (fun e => is_createComponent e = true) x |- _ =>
                 rewrite (after_first_none f x) in Hh
                   by (eapply Forall_impl; [| exact Hall]; silent_report)
             end
         end.

(** Evaluates [health_check], [category_of], [lookup_of] or [discovery]
    in [Hh]. *)
Ltac locate Hh :=
  unfold health_check, category_of, lookup_of, discovery in Hh;
  repeat first
    [ progress (cbn [after_first health_report category_report lookup_report
                     discovery_report option_map fst] in Hh)
    | progress (skip_creates Hh) ].

(** Evaluates [failures], [warned], [comments] and [listings] in the
    goal. *)
Ltac tally :=
  unfold failures, warned, comments, listings;
  repeat first
    [ progress (cbn [flat_map app called])
    | rewrite flat_map_app
    | match goal with
      | Hall : Forall (fun e => is_createComponent e = true) ?x
        |- context [flat_map ?f ?x] =>
          let T := fresh "T" in
          pose proof (tallies_createComponent x Hall) as T;
          unfold failures, warned, comments, listings in T;
          destruct T as (? & ? & ? & ?);
          first [ replace (flat_map f x) with (@nil string) by (symmetry; assumption)
                | replace (flat_map f x) with (@nil (option N * string))
                    by (symmetry; assumption)
                | replace (flat_map f x) with (@nil CategoryId)
                    by (symmetry; assumption) ]
      end ].

Lemma uncommented_createComponent (t : trace) :
  Forall (fun e => is_createComponent e = true) t ->
  forall p, uncommented_failures p t = [].
Proof.
  induction 1 as [| e t He _ IH]; intros p; cbn; [reflexivity |].
  rewrite IH. destruct e as [[] r | o]; cbn in He; try discriminate.
  reflexivity.
Qed.

Lemma uncommented_after_createComponent (x : trace) :
  Forall (fun e => is_createComponent e = true) x ->
  forall p e t,
    is_failure e = false ->
    uncommented_failures p (x +++ e :: t) = uncommented_failures (Some e) t.
Proof.
  induction 1 as [| e' x He _ IH]; intros p e t Hf; cbn.
  - destruct e as [c r | []]; cbn in Hf; try discriminate; reflexivity.
  - rewrite IH by exact Hf.
    destruct e' as [[] r | o]; cbn in He; try discriminate. reflexivity.
Qed.

Lemma removal_guard_none t :
  Forall (fun e => not_removal e = true) t ->
  forall b2 b1, removal_guard b2 b1 t = None.
Proof.
  induction 1 as [| e t He _ IH]; intros b2 b1; cbn; [reflexivity |].
  unfold not_removal in He. destruct (called e) as [[] |]; auto; discriminate.
Qed.

Lemma removal_guard_skip x :
  Forall (fun e => is_createComponent e = true) x ->
  forall b2 b1 e1 e2 t,
    not_removal e1 = true -> not_removal e2 = true ->
    removal_guard b2 b1 (x +++ e1 :: e2 :: t)
    = removal_guard (Some e1) (Some e2) t.
Proof.
  induction 1 as [| e x He _ IH]; intros b2 b1 e1 e2 t H1 H2.
  - cbn. unfold not_removal in H1, H2.
    destruct (called e1) as [[] |]; try discriminate;
      destruct (called e2) as [[] |]; try discriminate; reflexivity.
  - cbn. unfold is_createComponent in He.
    destruct (called e) as [[] |]; try discriminate. apply IH; assumption.
Qed.

Lemma not_removal_createComponent x :
  Forall (fun e => is_createComponent e = true) x ->
  Forall (fun e => not_removal e = true) x.
Proof.
  intros H; eapply Forall_impl; [| exact H].
  intros [[] r | o]; cbn; congruence.
Qed.

(** Evaluates [removal_guard] in [Hg]. *)
Ltac locate_removal Hg :=
  repeat first
    [ progress (cbn [removal_guard called] in Hg)
    | match type of Hg with
      | context [removal_guard ?b2 ?b1 (?x +++ ?e1 :: ?e2 :: ?t)] =>
          match goal with
          | Hall : Forall (fun e => is_createComponent e = true) x |- _ =>
              rewrite (removal_guard_skip x Hall b2 b1 e1 e2 t) in Hg
                by reflexivity
          end
      | context [removal_guard ?b2 ?b1 (?x +++ ?t)] =>
          match goal with
          | Hall : Forall (fun e => is_createComponent e = true) x |- _ =>
              rewrite (removal_guard_none (x +++ t)) in Hg
                by (apply Forall_app; split;
                    [ exact (not_removal_createComponent x Hall)
                    | repeat constructor ])
          end
      | context [removal_guard ?b2 ?b1 ?x] =>
          match goal with
          | Hall : Forall (fun e => is_createComponent e = true) x |- _ =>
              rewrite (removal_guard_none x
                         (not_removal_createComponent x Hall)) in Hg
          end
      end ].

(** The arguments of a fan-out of creations come from its list. *)
Lemma created_fanout {X : Type} (g : X -> Create.t) l t o :
  path (promise_all (map (fun x => weblate.createComponent (g x)) l)) t o ->
  Forall (fun args => exists x, In x l /\ args = g x) (created t).
Proof.
  intros H.
  assert (Forall (fun e => Forall (fun args => exists x, In x l /\ args = g x)
                                  (created [e])) t) as Ht.
  { revert H. apply path_promise_all.
    intros p Hin t' r Hp. apply in_map_iff in Hin.
    destruct Hin as (x & <- & Hin). cbn in Hp.
    destruct Hp as (r0 & t'' & -> & Hp).
    destruct r0; destruct Hp as [-> _]; repeat constructor; eauto. }
  clear H. induction Ht as [| e t He _ IH]; [constructor |].
  change (e :: t) with ([e] +++ t). rewrite created_app.
  apply Forall_app; split; assumption.
Qed.

(** Two answers to the same truthiness test agree. *)
Ltac same_message :=
  match goal with
  | H1 : truthy ?x = Some _, H2 : truthy ?x = Some _ |- _ =>
      rewrite H1 in H2; injection H2 as <-
  end.

(** Closes a goal [exists r, e :: _ = ... r ... /\ _] with the answer the
    event carries. *)
Ltac with_answer :=
  lazymatch goal with
  | |- exists r, (Called _ ?r0 :: _) = _ /\ _ => exists r0
  end; split; reflexivity.

(** ** The mode handlers *)

(** The paths of the runs on the model. *)
Lemma trunk_run_path w :
  path (syncMaster trunk_config) (events (trunk_run w)) (outcome (trunk_run w)).
Proof. apply run_path. Qed.

Lemma pull_request_run_path w :
  path (validatePullRequest pull_request_config)
       (events (pull_request_run w)) (outcome (pull_request_run w)).
Proof. apply run_path. Qed.


(** *** What the handlers do in general *)

(** Every component the pull-request handler creates goes into the
    category of the run. *)
Lemma validatePullRequest_creates_in_its_category :
  forall config t o category,
    path (validatePullRequest config) t o ->
    category_of t = Some category ->
    Forall (fun args =>
              Create.categoryId args = Category.id category
              /\ Create.categorySlug args = Category.slug category)
           (created t).
Proof.
  intros config t o category H Hc.
  unfold validatePullRequest in H. reduce H.
  repeat step H; locate Hc; try discriminate; injection Hc as <-.
  all: unfold created; repeat first [ progress cbn [flat_map app called]
                                    | rewrite flat_map_app ].
  all: repeat first [ apply Forall_nil
                    | apply Forall_cons; [cbn; auto |]
                    | apply Forall_app; split ].
  all: try match goal with
       | Hfan : path (promise_all (map _ (tl _))) ?x _
         |- Forall _ (flat_map _ ?x) =>
           apply created_fanout in Hfan;
           eapply Forall_impl; [| exact Hfan];
           intros ? (? & _ & ->); cbn; auto
       end.
  all: match goal with
       | Hfan : path (promise_all (map _ ?l)) ?x _
         |- Forall _ (flat_map _ ?x) =>
           match type of Hfan with
           | context [match ?m with Some _ => _ | None => _ end] =>
               destruct m
           end;
           [ apply created_fanout in Hfan;
             eapply Forall_impl; [| exact Hfan];
             intros ? (? & _ & ->); cbn; auto
           | apply (path_promise_all (fun _ => False)) in Hfan;
             [ destruct Hfan as [| ? ? []]; constructor
             | intros p Hin t' r Hp; apply in_map_iff in Hin;
               destruct Hin as (? & <- & _); destruct Hp as [-> _];
               constructor ] ]
       end.
Qed.

(** X15: the trunk category is looked up only for a pull-request category
    that was just created. *)
Lemma validatePullRequest_looks_up_trunk_when_new :
  forall config t o category found,
    path (validatePullRequest config) t o ->
    category_of t = Some category ->
    lookup_of t = Some found ->
    Category.wasRecentlyCreated category = true.
Proof.
  intros config t o category found H Hc Hl.
  unfold validatePullRequest in H. reduce H.
  repeat step H; locate Hc; locate Hl; try discriminate;
    injection Hc as <-; assumption.
Qed.

(** X14: unpushed platform-side commits alone are fatal in both modes,
    and commented in pull-request mode. *)
Lemma unpushed_commits_are_fatal :
  forall m config t o errors rest message,
    path (modeToHandler m config) t o ->
    health_check t = Some (errors, rest) ->
    truthy (mergeFailureError errors) = None ->
    truthy (needsCommitError errors) = None ->
    truthy (needsPushError errors) = Some message ->
    match m with
    | SYNC_MASTER => rest = [Told (SetFailed SYNC_MASTER_unpushed)] /\ o = Ok tt
    | VALIDATE_PULL_REQUEST =>
        exists r,
          rest = Called (CreateComment (pullRequestNumber config) message) r
                   :: match r with
                      | Ok _ => [Told (SetFailed message)]
                      | Err _ => []
                      end
          /\ o = match r with Ok _ => Ok tt | Err e => Err e end
    | REMOVE_BRANCH => False
    end.
Proof.
  intros m config t o errors rest message H Hh Hm Hc Hp.
  destruct m; cbn [modeToHandler] in H.
  - unfold syncMaster in H. reduce H.
    repeat step H; locate Hh; try discriminate;
      injection Hh as <- <-; try congruence.
    all: split; reflexivity.
  - unfold validatePullRequest in H. reduce H.
    repeat step H; locate Hh; try discriminate;
      injection Hh as <- <-; try congruence.
    all: same_message; with_answer.
  - unfold removeBranch in H. reduce H.
    repeat step H; discriminate.
Qed.

(** *** Task barrier before removal *)

(** X17: the trunk handler asks the platform for all components of the
    category and waits for exactly those before it removes (index.ts,
    lines 83-99). *)
Lemma syncMaster_waits_for_whole_category :
  forall config t o b2 b1 i,
    path (syncMaster config) t o ->
    removal_guard None None t = Some (b2, b1, i) ->
    exists components slug r,
      b2 = Some (Called (GetComponentsInCategory i) (Ok components))
      /\ b1 = Some (Called (WaitComponentsTasks
                              (map Component.name components) slug) r).
Proof.
  intros config t o b2 b1 i H Hg.
  unfold syncMaster in H. reduce H.
  repeat step H; locate_removal Hg; try discriminate.
  all: inversion Hg; subst; eexists _, _, _; split; reflexivity.
Qed.

(** X16: the pull-request handler, once it has discovered the resources,
    never asks the platform which components the category holds: the names
    it waits for can only come from its own creation calls (index.ts,
    lines 255-272). *)
Lemma validatePullRequest_never_lists_the_category :
  forall config t o components rest,
    path (validatePullRequest config) t o ->
    discovery t = Some (components, rest) ->
    listings rest = [].
Proof.
  intros config t o components rest H Hd.
  unfold validatePullRequest in H. reduce H.
  repeat step H; locate Hd; try discriminate; injection Hd as <- <-.
  all: tally; reflexivity.
Qed.

(** On a trunk category that still holds [component2] while the code only
    has [component1], the trunk handler waits for both. *)
Example trunk_barrier_covers_category :
  exists w,
    barrier_at_removal None
      (history (trunk_run (holding fs_single synced_platform)))
    = Some (Some ["component1"; "component2"], 1%N, w)
    /\ map Component.name (Platform.components_of 1%N w)
       = ["component1"; "component2"].
Proof. eexists. split; vm_compute; reflexivity. Qed.

(** C1 (the code departs from the claim): in validate-pull-request mode,
    on a pull-request category that already holds [component1__42] and
    [component2__42] while the code only has [component1], the handler
    calls [waitComponentsTasks] with [component1__42] alone and then
    requests the removal; at that moment the category holds both
    components, one of them outside the barrier. *)
Theorem pull_request_barrier_misses_components :
  exists w,
    barrier_at_removal None
      (history (pull_request_run (holding fs_single opened_platform)))
    = Some (Some ["component1__42"], 2%N, w)
    /\ map Component.name (Platform.components_of 2%N w)
       = ["component1__42"; "component2__42"].
Proof. eexists. split; vm_compute; reflexivity. Qed.

(** *** Repository health *)

(** C5: in every mode, once the repository health check has reported a
    merge failure (a non-empty [mergeFailureError]), all that the handler
    still does is mark the run failed with that message, preceded in
    validate-pull-request mode by the pull-request comment carrying it; it
    then returns. Nothing is done about [needsCommitError] or
    [needsPushError]. (When posting the comment itself is rejected the
    handler stops there with that error.) The remove-branch handler has no
    health check. *)
Theorem merge_failure_stops_handler :
  forall m config t o errors rest message,
    path (modeToHandler m config) t o ->
    health_check t = Some (errors, rest) ->
    truthy (mergeFailureError errors) = Some message ->
    match m with
    | SYNC_MASTER => rest = [Told (SetFailed message)] /\ o = Ok tt
    | VALIDATE_PULL_REQUEST =>
        exists r,
          rest = Called (CreateComment (pullRequestNumber config) message) r
                   :: match r with
                      | Ok _ => [Told (SetFailed message)]
                      | Err _ => []
                      end
          /\ o = match r with Ok _ => Ok tt | Err e => Err e end
    | REMOVE_BRANCH => False
    end.
Proof.
  intros m config t o errors rest message H Hh Hm.
  destruct m; cbn [modeToHandler] in H.
  - unfold syncMaster in H. reduce H.
    repeat step H; locate Hh; try discriminate;
      injection Hh as <- <-; try congruence.
    all: split; congruence.
  - unfold validatePullRequest in H. reduce H.
    repeat step H; locate Hh; try discriminate;
      injection Hh as <- <-; try congruence.
    all: same_message; with_answer.
  - unfold removeBranch in H. reduce H.
    repeat step H; discriminate.
Qed.

Lemma merge_failure_stops_handler_witness :
  health_check (events (trunk_run (reporting conflicting empty_platform)))
  = Some (conflicting, [Told (SetFailed "Merge failed: conflict in en.json")])
  /\ truthy (mergeFailureError conflicting)
     = Some "Merge failed: conflict in en.json"
  /\ [Told (SetFailed "Merge failed: conflict in en.json")]
     = [Told (SetFailed "Merge failed: conflict in en.json")]
  /\ outcome (trunk_run (reporting conflicting empty_platform)) = Ok tt.
Proof.
  assert (Hh : health_check
                 (events (trunk_run (reporting conflicting empty_platform)))
               = Some (conflicting,
                       [Told (SetFailed "Merge failed: conflict in en.json")]))
    by (vm_compute; reflexivity).
  assert (Hm : truthy (mergeFailureError conflicting)
               = Some "Merge failed: conflict in en.json") by reflexivity.
  split; [exact Hh |]. split; [exact Hm |].
  exact (merge_failure_stops_handler SYNC_MASTER trunk_config _ _ _ _ _
           (trunk_run_path (reporting conflicting empty_platform)) Hh Hm).
Defined.

(** C2 (the claim does not hold in validate-pull-request mode): with
    uncommitted platform-side changes and nothing else wrong, the
    pull-request handler posts a comment and marks the run failed, without
    any warning. *)
Lemma uncommitted_changes_fail_pull_request :
  health_check (events (pull_request_run (reporting uncommitted synced_platform)))
  = Some (uncommitted,
          [Called (CreateComment (Some 42%N)
                                 "Repository has uncommitted changes") (Ok tt);
           Told (SetFailed "Repository has uncommitted changes")])
  /\ warned (events (pull_request_run (reporting uncommitted synced_platform)))
     = []
  /\ failures (events (pull_request_run (reporting uncommitted synced_platform)))
     = ["Repository has uncommitted changes"]
  /\ ~ uncommitted_changes_tolerated VALIDATE_PULL_REQUEST.
Proof.
  assert (Hh : health_check
                 (events (pull_request_run
                            (reporting uncommitted synced_platform)))
               = Some (uncommitted,
                       [Called (CreateComment
                                  (Some 42%N)
                                  "Repository has uncommitted changes") (Ok tt);
                        Told (SetFailed "Repository has uncommitted changes")]))
    by (vm_compute; reflexivity).
  assert (Hf : failures
                 (events (pull_request_run
                            (reporting uncommitted synced_platform)))
               = ["Repository has uncommitted changes"])
    by (vm_compute; reflexivity).
  split; [exact Hh |]. split; [vm_compute; reflexivity |].
  split; [exact Hf |].
  intros Hclaim.
  destruct (Hclaim pull_request_config _ _ _ _ _
              (pull_request_run_path (reporting uncommitted synced_platform))
              Hh eq_refl eq_refl eq_refl) as (_ & Hnone & _).
  rewrite Hnone in Hf. discriminate Hf.
Qed.

(** C2, as the code has it: when the health check reports
    [needsCommitError] and no merge failure, the trunk handler logs a
    warning and does not fail the run for it (the run is marked failed
    only if [needsPushError] is reported too, with the message about
    unpushed commits); the pull-request handler posts a comment with the
    error and marks the run failed, without a warning. *)
Theorem uncommitted_changes_by_mode :
  forall m config t o errors rest message,
    path (modeToHandler m config) t o ->
    health_check t = Some (errors, rest) ->
    truthy (mergeFailureError errors) = None ->
    truthy (needsCommitError errors) = Some message ->
    match m with
    | SYNC_MASTER =>
        warned rest = [SYNC_MASTER_uncommitted] /\ o = Ok tt
        /\ failures t = match truthy (needsPushError errors) with
                        | Some _ => [SYNC_MASTER_unpushed]
                        | None => []
                        end
    | VALIDATE_PULL_REQUEST =>
        warned t = []
        /\ exists r,
            rest = Called (CreateComment (pullRequestNumber config) message) r
                     :: match r with
                        | Ok _ => [Told (SetFailed message)]
                        | Err _ => []
                        end
            /\ o = match r with Ok _ => Ok tt | Err e => Err e end
    | REMOVE_BRANCH => False
    end.
Proof.
  intros m config t o errors rest message H Hh Hm Hc.
  destruct m; cbn [modeToHandler] in H.
  - unfold syncMaster in H. reduce H.
    repeat step H; locate Hh; try discriminate;
      injection Hh as <- <-; try congruence.
    all: repeat split; try reflexivity.
    all: tally.
    all: try reflexivity.
    all: match goal with
         | Hp : truthy (needsPushError _) = _ |- _ => rewrite Hp; reflexivity
         end.
  - unfold validatePullRequest in H. reduce H.
    repeat step H; locate Hh; try discriminate;
      injection Hh as <- <-; try congruence.
    all: split; [tally; reflexivity |].
    all: same_message; with_answer.
  - unfold removeBranch in H. reduce H.
    repeat step H; discriminate.
Qed.

Lemma uncommitted_changes_by_mode_witness :
  health_check (events (trunk_run (reporting uncommitted empty_platform)))
  = Some (uncommitted, [Told (ConsoleWarn SYNC_MASTER_uncommitted)])
  /\ truthy (mergeFailureError uncommitted) = None
  /\ truthy (needsCommitError uncommitted)
     = Some "Repository has uncommitted changes"
  /\ warned [Told (ConsoleWarn SYNC_MASTER_uncommitted)]
     = [SYNC_MASTER_uncommitted]
  /\ outcome (trunk_run (reporting uncommitted empty_platform)) = Ok tt
  /\ failures (events (trunk_run (reporting uncommitted empty_platform))) = [].
Proof.
  assert (Hh : health_check
                 (events (trunk_run (reporting uncommitted empty_platform)))
               = Some (uncommitted,
                       [Told (ConsoleWarn SYNC_MASTER_uncommitted)]))
    by (vm_compute; reflexivity).
  assert (Hm : truthy (mergeFailureError uncommitted) = None) by reflexivity.
  assert (Hc : truthy (needsCommitError uncommitted)
               = Some "Repository has uncommitted changes") by reflexivity.
  split; [exact Hh |]. split; [exact Hm |]. split; [exact Hc |].
  exact (uncommitted_changes_by_mode SYNC_MASTER trunk_config _ _ _ _ _
           (trunk_run_path (reporting uncommitted empty_platform)) Hh Hm Hc).
Defined.

(** *** Failures and pull-request comments *)

(** C3 (the claim does not hold for the missing trunk category): on a
    platform without a category for the trunk, the pull-request handler
    marks the run failed and posts no comment at all. *)
Lemma trunk_missing_fails_without_comment :
  failures (events (pull_request_run empty_platform))
  = ["Not found category for branch 'master'"]
  /\ comments (events (pull_request_run empty_platform)) = []
  /\ uncommented_failures None (events (pull_request_run empty_platform))
     = ["Not found category for branch 'master'"]
  /\ ~ every_failure_commented.
Proof.
  repeat split; try (vm_compute; reflexivity).
  intros Hclaim.
  specialize (Hclaim pull_request_config _ _
                (pull_request_run_path empty_platform)).
  vm_compute in Hclaim. discriminate Hclaim.
Qed.

(** C3, as the code has it: in the validate-pull-request flow every call
    that marks the run failed comes immediately after a successful
    pull-request comment with the same message, except when the trunk
    category is not found: then the run is marked failed with the
    not-found message and no comment is posted. *)
Theorem failures_commented_unless_trunk_missing :
  forall config t o,
    path (validatePullRequest config) t o ->
    match lookup_of t with
    | Some None =>
        failures t
        = ["Not found category for branch '" ++ masterBranch config ++ "'"]
        /\ comments t = [] /\ o = Ok tt
    | _ => uncommented_failures None t = []
    end.
Proof.
  intros config t o H.
  destruct (lookup_of t) as [found |] eqn:Hl.
  - unfold validatePullRequest in H. reduce H.
    repeat step H; locate Hl; try discriminate;
      injection Hl as <-; try match goal with
                              | Hr : _ = Some _ |- _ => rewrite Hr
                              end.
    all: try (repeat first
           [ progress (cbn [uncommented_failures app])
           | rewrite String.eqb_refl
           | match goal with
             | Hall : Forall (fun e => is_createComponent e = true) ?x
               |- context [uncommented_failures ?p (?x +++ ?e :: ?t)] =>
                 rewrite (uncommented_after_createComponent x Hall p e t)
                   by reflexivity
             | Hall : Forall (fun e => is_createComponent e = true) ?x
               |- context [uncommented_failures ?p ?x] =>
                 rewrite (uncommented_createComponent x Hall p)
             end ];
              reflexivity).
    all: try (repeat split; tally; reflexivity).
  - unfold validatePullRequest in H. reduce H.
    repeat step H; locate Hl; try discriminate.
    all: try (repeat first
           [ progress (cbn [uncommented_failures app])
           | rewrite String.eqb_refl
           | match goal with
             | Hall : Forall (fun e => is_createComponent e = true) ?x
               |- context [uncommented_failures ?p (?x +++ ?e :: ?t)] =>
                 rewrite (uncommented_after_createComponent x Hall p e t)
                   by reflexivity
             | Hall : Forall (fun e => is_createComponent e = true) ?x
               |- context [uncommented_failures ?p ?x] =>
                 rewrite (uncommented_createComponent x Hall p)
             end ];
              reflexivity).
Qed.

Lemma failures_commented_unless_trunk_missing_witness :
  failures (events (pull_request_run (reporting conflicting synced_platform)))
  = ["Merge failed: conflict in en.json"]
  /\ comments (events (pull_request_run
                         (reporting conflicting synced_platform)))
     = [(Some 42%N, "Merge failed: conflict in en.json")]
  /\ uncommented_failures None
       (events (pull_request_run (reporting conflicting synced_platform)))
     = [].
Proof.
  split; [vm_compute; reflexivity |]. split; [vm_compute; reflexivity |].
  exact (failures_commented_unless_trunk_missing pull_request_config _ _
           (pull_request_run_path (reporting conflicting synced_platform))).
Defined.

(** *** The update-if-exists flag *)

(** C4 (the claim does not hold): on a pull-request category that existed
    before the run, both component-creation calls of the reconciliation
    step pass [updateIfExist: false]. *)
Lemma update_flag_absent_when_category_existed :
  exists category components rest,
    category_of (events (pull_request_run opened_platform)) = Some category
    /\ discovery (events (pull_request_run opened_platform))
       = Some (components, rest)
    /\ Category.wasRecentlyCreated category = false
    /\ map Create.updateIfExist (created rest) = [Some false; Some false]
    /\ ~ update_flag_when_category_existed.
Proof.
  assert (Hp := pull_request_run_path opened_platform).
  destruct (category_of (events (pull_request_run opened_platform)))
    as [category |] eqn:Hc; [| vm_compute in Hc; discriminate Hc].
  destruct (discovery (events (pull_request_run opened_platform)))
    as [[components rest] |] eqn:Hd; [| vm_compute in Hd; discriminate Hd].
  exists category, components, rest.
  split; [reflexivity |]. split; [reflexivity |].
  assert (Hw : Category.wasRecentlyCreated category = false).
  { vm_compute in Hc. injection Hc as <-. reflexivity. }
  assert (Hf : map Create.updateIfExist (created rest)
               = [Some false; Some false]).
  { vm_compute in Hd. injection Hd as <- <-. reflexivity. }
  repeat split; try assumption.
  intros Hclaim.
  specialize (Hclaim pull_request_config _ _ _ _ _ Hp Hc Hd).
  rewrite Hw in Hclaim.
  destruct (created rest) as [| args l]; [discriminate Hf |].
  inversion Hclaim as [| ? ? Hargs _]; subst.
  cbn in Hf. rewrite Hargs in Hf. discriminate Hf.
Qed.

(** C4, as the code has it: every component-creation call of the
    reconciliation step (the calls that follow resource discovery) passes
    [updateIfExist] equal to [wasRecentlyCreated]: the flag is set exactly
    when the category was created by this run, and cleared when it already
    existed. *)
Theorem update_flag_is_wasRecentlyCreated :
  forall config t o category components rest,
    path (validatePullRequest config) t o ->
    category_of t = Some category ->
    discovery t = Some (components, rest) ->
    Forall (fun args =>
              Create.updateIfExist args
              = Some (Category.wasRecentlyCreated category))
           (created rest).
Proof.
  intros config t o category components rest H Hc Hd.
  unfold validatePullRequest in H. reduce H.
  repeat step H; locate Hc; locate Hd; try discriminate;
    injection Hc as <-; injection Hd as <- <-.
  all: unfold created; repeat first [ progress cbn [flat_map app called]
                                    | rewrite flat_map_app ].
  all: repeat first [ apply Forall_nil
                    | apply Forall_cons; [cbn; congruence |]
                    | apply Forall_app; split ].
  all: match goal with
       | Hfan : path (promise_all (map _ (tl _))) ?x _
         |- Forall _ (flat_map _ ?x) =>
           apply created_fanout in Hfan;
           eapply Forall_impl; [| exact Hfan];
           intros ? (? & _ & ->); cbn; congruence
       end.
Qed.

Lemma update_flag_is_wasRecentlyCreated_witness :
  exists category components rest,
    category_of (events (pull_request_run synced_platform)) = Some category
    /\ discovery (events (pull_request_run synced_platform))
       = Some (components, rest)
    /\ Category.wasRecentlyCreated category = true
    /\ map Create.updateIfExist (created rest) = [Some true; Some true]
    /\ Forall (fun args =>
                 Create.updateIfExist args
                 = Some (Category.wasRecentlyCreated category))
              (created rest).
Proof.
  assert (Hp := pull_request_run_path synced_platform).
  destruct (category_of (events (pull_request_run synced_platform)))
    as [category |] eqn:Hc; [| vm_compute in Hc; discriminate Hc].
  destruct (discovery (events (pull_request_run synced_platform)))
    as [[components rest] |] eqn:Hd; [| vm_compute in Hd; discriminate Hd].
  exists category, components, rest.
  split; [reflexivity |]. split; [reflexivity |].
  split; [vm_compute in Hc; injection Hc as <-; reflexivity |].
  split; [vm_compute in Hd; injection Hd as <- <-; reflexivity |].
  exact (update_flag_is_wasRecentlyCreated pull_request_config _ _ _ _ _
           Hp Hc Hd).
Defined.

(** *** Empty discovery *)

(** C10: in the sync-trunk and validate-pull-request handlers, when
    resource discovery returns an empty list the run ends right there
    (after one log line in pull-request mode) with the uncaught
    [TypeError] of reading [name] from [undefined]: no component is
    created, and the run is not marked failed by the handler. The
    remove-branch handler does not discover resources. *)
Theorem empty_discovery_aborts :
  forall m config t o rest,
    path (modeToHandler m config) t o ->
    discovery t = Some ([], rest) ->
    o = Err (undefined_property "name")
    /\ failures t = []
    /\ match m with
       | SYNC_MASTER => rest = []
       | VALIDATE_PULL_REQUEST =>
           rest = [Told (ConsoleLog ("✅ Resolved components in code "
                                     ++ keysetsPath config ++ ", "
                                     ++ mainLanguage config))]
       | REMOVE_BRANCH => False
       end.
Proof.
  intros m config t o rest H Hd.
  destruct m; cbn [modeToHandler] in H.
  - unfold syncMaster in H. reduce H.
    repeat step H; locate Hd; try discriminate;
      injection Hd as -> <-; try discriminate.
    all: repeat split; tally; reflexivity.
  - unfold validatePullRequest in H. reduce H.
    repeat step H; locate Hd; try discriminate;
      injection Hd as -> <-; try discriminate.
    all: repeat split; tally; reflexivity.
  - unfold removeBranch in H. reduce H.
    repeat step H; discriminate.
Qed.

Lemma empty_discovery_aborts_witness :
  discovery (events (trunk_run (holding fs_no_groups empty_platform)))
  = Some ([], [])
  /\ outcome (trunk_run (holding fs_no_groups empty_platform))
     = Err (undefined_property "name")
  /\ failures (events (trunk_run (holding fs_no_groups empty_platform))) = []
  /\ @nil event = [].
Proof.
  assert (Hd : discovery
                 (events (trunk_run (holding fs_no_groups empty_platform)))
               = Some ([], [])) by (vm_compute; reflexivity).
  split; [exact Hd |].
  exact (empty_discovery_aborts SYNC_MASTER trunk_config _ _ _
           (trunk_run_path (holding fs_no_groups empty_platform)) Hd).
Defined.

(** *** Removing a branch *)






(** * Further properties of the handlers *)

(** ** Stepping, for any observation *)

(** Skips fan-outs of creations in an observation [after_first f] on which
    creations are silent. *)
Ltac skip_silent Hh :=
  repeat match type of Hh with
         | context [after_first ?f (?x +++ ?t)] =>
             match goal with
             | Hall : Forall (fun e => is_createComponent e = true) x |- _ =>
                 rewrite (after_first_app f x t) in Hh
                   by (eapply Forall_impl; [| exact Hall];
                       intros [[] ?r | ?o]; cbn; congruence)
             end
         | context [after_first ?f ?x] =>
             match goal with
             | Hall : Forall (fun e => is_createComponent e = true) x |- _ =>
                 rewrite (after_first_none f x) in Hh
                   by (eapply Forall_impl; [| exact Hall];
                       intros [[] ?r | ?o]; cbn; congruence)
             end
         end.

(** Evaluates any of the [after_first] observations in [Hh]. *)
Ltac seek Hh :=
  unfold health_check, category_of, lookup_of, discovery, first_failure,
    pull_of, listing_of, owner_of, removal_of in Hh;
  repeat first
    [ progress (cbn [after_first health_report category_report lookup_report
                     discovery_report failure_report pull_report
                     listing_report owner_report main_report
                     removal_report called bound Create.branch
                     option_map fst] in Hh)
    | progress (skip_silent Hh) ].

(** Evaluates the counting observations in the goal, fan-outs of creations
    counting for nothing. *)
Ltac count :=
  unfold failures, warned, comments, listings, removals, pulls,
    component_pulls, health_checks, kept, category_requests, lookups;
  repeat first
    [ progress (cbn [flat_map app called])
    | rewrite flat_map_app
    | match goal with
      | Hall : Forall (fun e => is_createComponent e = true) ?x
        |- context [flat_map ?f ?x] =>
          rewrite (flat_map_silent f x)
            by (eapply Forall_impl; [| exact Hall];
                intros [[] ?r | ?o]; cbn; congruence)
      end ].

(** ** Fatal conditions *)

(** X1: in every mode, the first call of [setFailed] is the last thing a
    run does: nothing follows it, the handler returns normally, and the
    run is marked failed exactly once, with that message. *)
Theorem failure_is_final :
  forall m config t o message rest,
    path (modeToHandler m config) t o ->
    first_failure t = Some (message, rest) ->
    rest = [] /\ o = Ok tt /\ failures t = [message].
Proof.
  intros m config t o message rest H Hf.
  destruct m; cbn [modeToHandler] in H.
  - unfold syncMaster in H. reduce H.
    repeat step H; seek Hf; try discriminate; injection Hf as <- <-.
    all: repeat split; count; reflexivity.
  - unfold validatePullRequest in H. reduce H.
    repeat step H; seek Hf; try discriminate; injection Hf as <- <-.
    all: repeat split; count; reflexivity.
  - unfold removeBranch in H. reduce H.
    repeat step H; discriminate.
Qed.

Lemma failure_is_final_witness :
  first_failure (events (trunk_run (reporting conflicting empty_platform)))
  = Some ("Merge failed: conflict in en.json", [])
  /\ @nil event = []
  /\ outcome (trunk_run (reporting conflicting empty_platform)) = Ok tt
  /\ failures (events (trunk_run (reporting conflicting empty_platform)))
     = ["Merge failed: conflict in en.json"].
Proof.
  assert (Hf : first_failure
                 (events (trunk_run (reporting conflicting empty_platform)))
               = Some ("Merge failed: conflict in en.json", []))
    by (vm_compute; reflexivity).
  split; [exact Hf |].
  exact (failure_is_final SYNC_MASTER trunk_config _ _ _ _
           (trunk_run_path (reporting conflicting empty_platform)) Hf).
Defined.



(** ** The category of a run *)

(** What the creations of a fan-out satisfy, when each promise either
    creates with arguments satisfying it or throws before calling. *)
Lemma created_of_fanout {X : Type} (P : Create.t -> Prop)
      (h : X -> prog Component.t) l t o :
  (forall x, In x l ->
             (exists args, h x = weblate.createComponent args /\ P args)
             \/ exists e, h x = Throw e) ->
  path (promise_all (map h l)) t o ->
  Forall P (created t).
Proof.
  intros Hh H.
  assert (Forall (fun e => Forall P (created [e])) t) as Ht.
  { revert H. apply path_promise_all.
    intros p Hin t' r Hp. apply in_map_iff in Hin.
    destruct Hin as (x & <- & Hin).
    destruct (Hh x Hin) as [(args & Heq & Hargs) | (e & Heq)];
      rewrite Heq in Hp; cbn in Hp.
    - destruct Hp as (r0 & t'' & -> & Hp).
      destruct r0; destruct Hp as [-> _]; repeat constructor; exact Hargs.
    - destruct Hp as [-> _]; constructor. }
  clear H. induction Ht as [| e t He _ IH]; [constructor |].
  change (e :: t) with ([e] +++ t). unfold created. rewrite flat_map_app.
  apply Forall_app; split; assumption.
Qed.

(** Turns every fan-out at hand into the fact that its creations satisfy
    [P]. *)
Ltac fanouts P :=
  repeat match goal with
         | Hfan : path (promise_all (map _ _)) _ _ |- _ =>
             apply (created_of_fanout P) in Hfan;
             [| intros ? _; cbv beta;
                try lazymatch goal with
                    | |- (exists _, match ?m with _ => _ end = _ /\ _) \/ _ =>
                        destruct m
                    end;
                first [ left; eexists; split; [reflexivity | cbn; auto]
                      | right; eexists; reflexivity ] ]
         end.

(** Splits a statement about all creations of a run into its single
    creations and its fan-outs. *)
Ltac each_creation :=
  unfold created;
  repeat first [ progress cbn [flat_map app called] | rewrite flat_map_app ];
  repeat first [ apply Forall_nil
               | apply Forall_cons; [cbn; auto |]
               | apply Forall_app; split ];
  try match goal with
      | Hx : Forall _ (created ?x) |- Forall _ (flat_map _ ?x) => exact Hx
      end.

(** X3: in every mode, every component creation of a run carries the
    identifier and the slug of the category that
    [createCategoryForBranch] answered at the start of that run. *)
Theorem creations_target_the_category :
  forall m config t o category,
    path (modeToHandler m config) t o ->
    category_of t = Some category ->
    Forall (fun args =>
              Create.categoryId args = Category.id category
              /\ Create.categorySlug args = Category.slug category)
           (created t).
Proof.
  intros m config t o category H Hc.
  destruct m; cbn [modeToHandler] in H.
  - unfold syncMaster in H. reduce H.
    repeat step H; locate Hc; try discriminate; injection Hc as <-.
    all: match goal with |- Forall ?P _ => fanouts P end.
    all: each_creation.
  - unfold validatePullRequest in H. reduce H.
    repeat step H; locate Hc; try discriminate; injection Hc as <-.
    all: match goal with |- Forall ?P _ => fanouts P end.
    all: each_creation.
  - unfold removeBranch in H. reduce H.
    repeat step H; discriminate.
Qed.

Lemma creations_target_the_category_witness :
  category_of (events (pull_request_run synced_platform))
  = Some {| Category.id := 2%N;
            Category.slug := "feature__42";
            Category.wasRecentlyCreated := true |}
  /\ map Create.name (created (events (pull_request_run synced_platform)))
     = ["component1__42"; "component2__42";
        "component1__42"; "component2__42"]
  /\ Forall (fun args =>
               Create.categoryId args = 2%N
               /\ Create.categorySlug args = "feature__42")
            (created (events (pull_request_run synced_platform))).
Proof.
  assert (Hc : category_of (events (pull_request_run synced_platform))
               = Some {| Category.id := 2%N;
                         Category.slug := "feature__42";
                         Category.wasRecentlyCreated := true |})
    by (vm_compute; reflexivity).
  split; [exact Hc |]. split; [vm_compute; reflexivity |].
  exact (creations_target_the_category VALIDATE_PULL_REQUEST
           pull_request_config _ _ _
           (pull_request_run_path synced_platform) Hc).
Defined.

(** X4: remote changes are pulled for the category of the run exactly
    once when that category existed before the run, and not at all when the
    run created it; in the latter case no single component is pulled
    either. *)
Theorem pull_skipped_for_new_category :
  forall m config t o category,
    path (modeToHandler m config) t o ->
    category_of t = Some category ->
    pulls t = (if Category.wasRecentlyCreated category
               then [] else [Category.id category])
    /\ (Category.wasRecentlyCreated category = true ->
        component_pulls t = []).
Proof.
  intros m config t o category H Hc.
  destruct m; cbn [modeToHandler] in H.
  - unfold syncMaster in H. reduce H.
    repeat step H; locate Hc; try discriminate; injection Hc as <-.
    all: try match goal with
             | Hn : negb (Category.wasRecentlyCreated ?c) = _ |- _ =>
                 destruct (Category.wasRecentlyCreated c);
                 cbn [negb] in Hn; try discriminate Hn
             end.
    all: split; [| intros Hnew]; count; try reflexivity; discriminate.
  - unfold validatePullRequest in H. reduce H.
    repeat step H; locate Hc; try discriminate; injection Hc as <-.
    all: match goal with
         | Hr : Category.wasRecentlyCreated _ = _ |- _ => rewrite Hr in *
         end.
    all: split; [| intros Hnew]; count; try reflexivity; discriminate.
  - unfold removeBranch in H. reduce H.
    repeat step H; discriminate.
Qed.

Lemma pull_skipped_for_new_category_witness :
  category_of (events (pull_request_run opened_platform))
  = Some {| Category.id := 2%N;
            Category.slug := "feature__42";
            Category.wasRecentlyCreated := false |}
  /\ pulls (events (pull_request_run opened_platform)) = [2%N]
  /\ (false = true ->
      component_pulls (events (pull_request_run opened_platform)) = []).
Proof.
  assert (Hc : category_of (events (pull_request_run opened_platform))
               = Some {| Category.id := 2%N;
                         Category.slug := "feature__42";
                         Category.wasRecentlyCreated := false |})
    by (vm_compute; reflexivity).
  split; [exact Hc |].
  exact (pull_skipped_for_new_category VALIDATE_PULL_REQUEST
           pull_request_config _ _ _
           (pull_request_run_path opened_platform) Hc).
Defined.

(** X5: when [pullRemoteChanges] reports a merge failure message, the
    handler stops before resource discovery and before any creation: the
    trunk handler marks the run failed with the message, the pull-request
    handler posts it as a comment and then marks the run failed (nothing
    more if the comment is rejected). *)
Theorem pull_conflict_stops_before_discovery :
  forall m config t o pulled rest message,
    path (modeToHandler m config) t o ->
    pull_of t = Some (pulled, rest) ->
    truthy (mergeFailureMessage pulled) = Some message ->
    discovery t = None /\ created t = []
    /\ match m with
       | SYNC_MASTER => rest = [Told (SetFailed message)] /\ o = Ok tt
       | VALIDATE_PULL_REQUEST =>
           exists r,
             rest = Called (CreateComment (pullRequestNumber config) message) r
                      :: match r with
                         | Ok _ => [Told (SetFailed message)]
                         | Err _ => []
                         end
             /\ o = match r with Ok _ => Ok tt | Err e => Err e end
       | REMOVE_BRANCH => False
       end.
Proof.
  intros m config t o pulled rest message H Hp Hm.
  destruct m; cbn [modeToHandler] in H.
  - unfold syncMaster in H. reduce H.
    repeat step H; seek Hp; try discriminate;
      injection Hp as <- <-; try congruence.
    all: same_message; repeat split; reflexivity.
  - unfold validatePullRequest in H. reduce H.
    repeat step H; seek Hp; try discriminate;
      injection Hp as <- <-; try congruence.
    all: same_message; split; [reflexivity |]; split; [reflexivity |];
      with_answer.
  - unfold removeBranch in H. reduce H.
    repeat step H; discriminate.
Qed.

Lemma pull_conflict_stops_before_discovery_witness :
  pull_of (events (trunk_run (conflicting_pull synced_platform)))
  = Some ({| mergeFailureMessage := Some "Merge failed on pull" |},
          [Told (SetFailed "Merge failed on pull")])
  /\ truthy (Some "Merge failed on pull") = Some "Merge failed on pull"
  /\ discovery (events (trunk_run (conflicting_pull synced_platform))) = None
  /\ created (events (trunk_run (conflicting_pull synced_platform))) = []
  /\ [Told (SetFailed "Merge failed on pull")]
     = [Told (SetFailed "Merge failed on pull")]
  /\ outcome (trunk_run (conflicting_pull synced_platform)) = Ok tt.
Proof.
  assert (Hp : pull_of (events (trunk_run (conflicting_pull synced_platform)))
               = Some ({| mergeFailureMessage := Some "Merge failed on pull" |},
                       [Told (SetFailed "Merge failed on pull")]))
    by (vm_compute; reflexivity).
  split; [exact Hp |]. split; [reflexivity |].
  exact (pull_conflict_stops_before_discovery SYNC_MASTER trunk_config
           _ _ _ _ _
           (trunk_run_path (conflicting_pull synced_platform)) Hp eq_refl).
Defined.

(** ** What is created *)

Lemma filter_none {A : Type} (f : A -> bool) (P : A -> Prop) l :
  (forall a, P a -> f a = false) -> Forall P l -> filter f l = [].
Proof.
  intros HP H. induction H as [| a l Ha _ IH]; [reflexivity |].
  cbn. rewrite (HP a Ha). exact IH.
Qed.

Lemma startsWith_append p s : startsWith p (p ++ s) = true.
Proof.
  unfold startsWith.
  induction p as [| c p IH]; cbn; [destruct s; reflexivity |].
  destruct (ascii_dec c c) as [_ | Hne]; [exact IH | contradiction].
Qed.

Lemma linked_unbound l : Forall linked l -> filter bound l = [].
Proof. apply filter_none. intros a [Ha _]. exact Ha. Qed.

(** Projections of the arguments of a creation, without computing on
    strings. *)
Ltac fields :=
  cbn [Create.name Create.fileMask Create.categoryId Create.categorySlug
       Create.repo Create.branch Create.source Create.repoForUpdates
       Create.applyAddons Create.pullRequestAuthor Create.pullRequestNumber
       Create.updateIfExist bound].

(** [fanouts], with the tactic that shows [P] of the arguments. *)
Ltac fanouts_with P tac :=
  repeat match goal with
         | Hfan : path (promise_all (map _ _)) _ _ |- _ =>
             apply (created_of_fanout P) in Hfan;
             [| intros ? _; cbv beta;
                try lazymatch goal with
                    | |- (exists _, match ?m with _ => _ end = _ /\ _) \/ _ =>
                        destruct m
                    end;
                first [ left; eexists; split; [reflexivity | tac]
                      | right; eexists; reflexivity ] ]
         end.

(** The creations of a run, event by event. *)
Ltac creations :=
  unfold created in *;
  repeat first [ progress cbn [flat_map app called] | rewrite flat_map_app ].

(** Counts the creations bound to the repository and checks each creation
    of one run, the fan-outs being known to create links only. *)
Ltac owner_and_links Hl :=
  split;
  [ repeat first [ rewrite filter_app | progress (fields; cbn [filter]) ];
    repeat match goal with
           | Hx : Forall linked ?x |- context [filter bound ?x] =>
               rewrite (linked_unbound x Hx)
           end;
    cbn [app List.length]; lia
  | repeat first [ apply Forall_nil
                 | apply Forall_cons; [fields; repeat split; reflexivity |]
                 | apply Forall_app; split
                 | apply Hl; assumption ] ].

(** X6: in every run at most one creation is bound to the git repository;
    it is bound to [gitRepo] and [branchName] of the configuration and
    pushes to [gitRepo]. Every other creation is a link to a component of
    the platform (a [weblate://] reference) without a repository for
    updates. *)
Theorem one_component_owns_the_repository :
  forall m config t o,
    path (modeToHandler m config) t o ->
    List.length (filter bound (created t)) <= 1
    /\ Forall (fun args =>
                 if bound args
                 then Create.repo args = gitRepo config
                      /\ Create.branch args = Some (branchName config)
                      /\ Create.repoForUpdates args = Some (gitRepo config)
                 else startsWith "weblate://" (Create.repo args) = true
                      /\ Create.repoForUpdates args = None)
              (created t).
Proof.
  intros m config t o H.
  assert (Hl : forall l,
             Forall linked l ->
             Forall (fun args =>
                 if bound args
                 then Create.repo args = gitRepo config
                      /\ Create.branch args = Some (branchName config)
                      /\ Create.repoForUpdates args = Some (gitRepo config)
                 else startsWith "weblate://" (Create.repo args) = true
                      /\ Create.repoForUpdates args = None) l).
  { intros l. apply Forall_impl. intros a (Ha & Hr). rewrite Ha. exact Hr. }
  destruct m; cbn [modeToHandler] in H.
  - unfold syncMaster in H. reduce H.
    repeat step H.
    all: fanouts_with linked
           ltac:(unfold linked; fields; repeat split; apply startsWith_append).
    all: creations; owner_and_links Hl.
  - unfold validatePullRequest in H. reduce H.
    repeat step H.
    all: fanouts_with linked
           ltac:(unfold linked; fields; repeat split; apply startsWith_append).
    all: creations; owner_and_links Hl.
  - unfold removeBranch in H. reduce H.
    repeat step H; split; cbn; solve [constructor | lia].
Qed.

Lemma one_component_owns_the_repository_witness :
  map bound (created (events (pull_request_run synced_platform)))
  = [false; false; true; false]
  /\ List.length
       (filter bound (created (events (pull_request_run synced_platform))))
     <= 1
  /\ Forall (fun args =>
               if bound args
               then Create.repo args = gitRepo pull_request_config
                    /\ Create.branch args
                       = Some (branchName pull_request_config)
                    /\ Create.repoForUpdates args
                       = Some (gitRepo pull_request_config)
               else startsWith "weblate://" (Create.repo args) = true
                    /\ Create.repoForUpdates args = None)
            (created (events (pull_request_run synced_platform))).
Proof.
  split; [vm_compute; reflexivity |].
  exact (one_component_owns_the_repository VALIDATE_PULL_REQUEST
           pull_request_config _ _ (pull_request_run_path synced_platform)).
Defined.

(** The creations of a fan-out whose promises all call the platform are
    those of its list, in order: [Promise.all] cancels nothing. *)
Lemma created_settle_all {X : Type} (g : X -> Create.t) l :
  forall t o,
    path (settle_all (map (fun x => weblate.createComponent (g x)) l)) t o ->
    created t = map g l /\ exists rs, o = Ok rs.
Proof.
  induction l as [| x l IH]; intros t o H.
  - destruct H as [-> ->]. split; [reflexivity | eauto].
  - cbn [map settle_all] in H. apply path_bind in H.
    destruct H as [(r & t1 & t2 & H1 & H2 & ->) | (e & H1 & ->)].
    + apply path_bind in H2.
      destruct H2 as [(rs & t3 & t4 & H3 & [-> ->] & ->) | (e & H3 & ->)].
      * apply IH in H3. destruct H3 as [H3 _].
        rewrite app_nil_r, created_app, H3. split; [| eauto].
        cbn in H1. destruct H1 as (r0 & t' & -> & H1).
        destruct r0; destruct H1 as [-> _]; reflexivity.
      * apply IH in H3. destruct H3 as [_ (rs & Hrs)]. discriminate.
    + apply path_settle in H1. destruct H1 as (r' & Hr & _). discriminate.
Qed.

Lemma created_promise_all {X : Type} (g : X -> Create.t) l t o :
  path (promise_all (map (fun x => weblate.createComponent (g x)) l)) t o ->
  created t = map g l.
Proof.
  intros H. unfold promise_all in H. apply path_bind in H.
  destruct H as [(rs & t1 & t2 & H1 & H2 & ->) | (e & H1 & ->)].
  - apply created_settle_all in H1. destruct H1 as [H1 _].
    rewrite created_app, H1.
    destruct (collect rs); destruct H2 as [-> _]; apply app_nil_r.
  - apply created_settle_all in H1. tauto.
Qed.

(** A discovered list with a first group. *)
Ltac first_group :=
  repeat match goal with
         | Hhd : hd_error ?l = Some _ |- _ =>
             destruct l; cbn [hd_error tl] in *;
             [discriminate Hhd | injection Hhd as ->]
         | Hhd : hd_error ?l = None |- _ =>
             destruct l; cbn [hd_error tl] in *; [clear Hhd | discriminate Hhd]
         end.

(** Compares the resources requested in one run with the discovered
    list, what followed discovery being known. *)
Ltac requested_groups :=
  first_group;
  repeat match goal with
         | Hfan : path (promise_all (map _ _)) _ _ |- _ =>
             apply created_promise_all in Hfan
         end;
  creations;
  first
    [ right; split; [reflexivity | eexists; reflexivity]
    | left;
      repeat match goal with
             | Hx : flat_map _ ?x = _ |- context [flat_map _ ?x] => rewrite Hx
             end;
      repeat first [ rewrite map_app | rewrite map_map
                   | progress cbn [map app] | rewrite app_nil_r ];
      reflexivity ].

(** X7: after resource discovery the handler requests the discovered
    groups, in discovery order, each with its file mask and source file and
    under the name of the mode (the group name, followed by
    [__<pullRequestNumber>] in pull-request mode); the only other case is
    a run that ends in a rejection after having requested at most the
    first group. *)
Theorem reconciliation_requests_discovered_groups :
  forall m config t o groups rest,
    path (modeToHandler m config) t o ->
    discovery t = Some (groups, rest) ->
    map resource_of (created rest) = map (expected_resource m config) groups
    \/ (map resource_of (created rest)
        = map (expected_resource m config) (firstn 1 groups)
        /\ exists e, o = Err e).
Proof.
  intros m config t o groups rest H Hd.
  destruct m; cbn [modeToHandler] in H.
  - unfold syncMaster in H. reduce H.
    repeat step H; seek Hd; try discriminate; injection Hd as <- <-.
    all: requested_groups.
  - unfold validatePullRequest in H. reduce H.
    repeat step H; seek Hd; try discriminate; injection Hd as <- <-.
    all: requested_groups.
  - unfold removeBranch in H. reduce H.
    repeat step H; discriminate.
Qed.

Lemma reconciliation_requests_discovered_groups_witness :
  discovery (events (pull_request_run synced_platform))
  = Some (keyset_groups,
          remainder (discovery (events (pull_request_run synced_platform))))
  /\ map resource_of
         (created
            (remainder
               (discovery (events (pull_request_run synced_platform)))))
     = [ ("component1__42", "src/i18n-keysets/component1/*.json",
          "src/i18n-keysets/component1/en.json");
         ("component2__42", "src/i18n-keysets/component2/*.json",
          "src/i18n-keysets/component2/en.json") ]
  /\ (map resource_of
          (created
             (remainder
                (discovery (events (pull_request_run synced_platform)))))
      = map (expected_resource VALIDATE_PULL_REQUEST pull_request_config)
            keyset_groups
      \/ (map resource_of
              (created
                 (remainder
                    (discovery
                       (events (pull_request_run synced_platform)))))
          = map (expected_resource VALIDATE_PULL_REQUEST pull_request_config)
                (firstn 1 keyset_groups)
          /\ exists e,
               outcome (pull_request_run synced_platform) = Err e)).
Proof.
  assert (Hd : discovery (events (pull_request_run synced_platform))
               = Some (keyset_groups,
                       remainder
                         (discovery
                            (events (pull_request_run synced_platform)))))
    by (vm_compute; reflexivity).
  split; [exact Hd |]. split; [vm_compute; reflexivity |].
  exact (reconciliation_requests_discovered_groups VALIDATE_PULL_REQUEST
           pull_request_config _ _ _ _
           (pull_request_run_path synced_platform) Hd).
Defined.

(** X8: every creation of the pull-request handler carries the number and
    the author of the pull request, a name that ends in
    [__<pullRequestNumber>], and never the main-branch addons; every
    creation of the trunk handler applies the main-branch addons and
    carries neither pull-request data nor an update-if-exists flag. *)
Theorem creations_carry_the_pull_request :
  forall m config t o,
    path (modeToHandler m config) t o ->
    Forall (fun args =>
              match m with
              | VALIDATE_PULL_REQUEST =>
                  Create.pullRequestNumber args = pullRequestNumber config
                  /\ Create.pullRequestAuthor args = pullRequestAuthor config
                  /\ Create.applyAddons args <> Some AddonsMainBranch
                  /\ exists base,
                       Create.name args
                       = base ++ "__"
                         ++ template_number (pullRequestNumber config)
              | _ =>
                  Create.pullRequestNumber args = None
                  /\ Create.pullRequestAuthor args = None
                  /\ Create.applyAddons args = Some AddonsMainBranch
                  /\ Create.updateIfExist args = None
              end)
           (created t).
Proof.
  intros m config t o H.
  destruct m; cbn [modeToHandler] in H.
  - unfold syncMaster in H. reduce H.
    repeat step H.
    all: match goal with
         | |- Forall ?P _ =>
             fanouts_with P ltac:(fields; repeat split; reflexivity)
         end.
    all: creations.
    all: repeat first [ apply Forall_nil
                      | apply Forall_cons; [fields; repeat split; reflexivity |]
                      | apply Forall_app; split
                      | assumption ].
  - unfold validatePullRequest in H. reduce H.
    repeat step H.
    all: match goal with
         | |- Forall ?P _ =>
             fanouts_with P
               ltac:(fields; repeat split;
                     first [ reflexivity | discriminate
                           | eexists; reflexivity ])
         end.
    all: creations.
    all: repeat first [ apply Forall_nil
                      | apply Forall_cons;
                        [fields; repeat split;
                         first [ reflexivity | discriminate
                               | eexists; reflexivity ] |]
                      | apply Forall_app; split
                      | assumption ].
  - unfold removeBranch in H. reduce H.
    repeat step H; constructor.
Qed.

Lemma creations_carry_the_pull_request_witness :
  map Create.name (created (events (pull_request_run synced_platform)))
  = ["component1__42"; "component2__42"; "component1__42"; "component2__42"]
  /\ Forall (fun args =>
               Create.pullRequestNumber args = Some 42%N
               /\ Create.pullRequestAuthor args = Some "octocat"
               /\ Create.applyAddons args <> Some AddonsMainBranch
               /\ exists base, Create.name args = base ++ "__" ++ "42")
            (created (events (pull_request_run synced_platform))).
Proof.
  split; [vm_compute; reflexivity |].
  exact (creations_carry_the_pull_request VALIDATE_PULL_REQUEST
           pull_request_config _ _ (pull_request_run_path synced_platform)).
Defined.

(** ** A repository in good health *)

(** X9: when the repository health check reports nothing, the trunk
    handler is done and returns normally; the pull-request handler goes on
    to the check of untranslated components and, according to its answer,
    returns normally, or posts the answer as a comment and marks the run
    failed with it. *)
Theorem healthy_repository_outcome :
  forall m config t o errors rest,
    path (modeToHandler m config) t o ->
    health_check t = Some (errors, rest) ->
    truthy (mergeFailureError errors) = None ->
    truthy (needsCommitError errors) = None ->
    truthy (needsPushError errors) = None ->
    match m with
    | SYNC_MASTER => rest = [] /\ o = Ok tt
    | VALIDATE_PULL_REQUEST =>
        exists components slug r tail,
          rest = Called (GetUntranslatedComponentsError components slug) r
                   :: tail
          /\ match r with
             | Err e => tail = [] /\ o = Err e
             | Ok untranslated =>
                 match truthy untranslated with
                 | None => tail = [] /\ o = Ok tt
                 | Some message =>
                     exists r',
                       tail
                       = Called (CreateComment (pullRequestNumber config)
                                               message) r'
                           :: match r' with
                              | Ok _ => [Told (SetFailed message)]
                              | Err _ => []
                              end
                       /\ o = match r' with
                              | Ok _ => Ok tt
                              | Err e => Err e
                              end
                 end
             end
    | REMOVE_BRANCH => False
    end.
Proof.
  intros m config t o errors rest H Hh Hm Hc Hp.
  destruct m; cbn [modeToHandler] in H.
  - unfold syncMaster in H. reduce H.
    repeat step H; locate Hh; try discriminate;
      injection Hh as <- <-; try congruence.
    all: split; reflexivity.
  - unfold validatePullRequest in H. reduce H.
    repeat step H; locate Hh; try discriminate;
      injection Hh as <- <-; try congruence.
    all: eexists _, _, _, _; (split; [reflexivity |]); cbv beta iota.
    all: try match goal with
             | Hu : truthy ?u = _ |- context [truthy ?u] => rewrite Hu
             end.
    all: try (split; reflexivity).
    all: with_answer.
  - unfold removeBranch in H. reduce H.
    repeat step H; discriminate.
Qed.

Lemma healthy_repository_outcome_witness :
  health_check
    (events (pull_request_run (untranslated_platform synced_platform)))
  = Some (healthy,
          remainder
            (health_check
               (events (pull_request_run
                          (untranslated_platform synced_platform)))))
  /\ failures
       (events (pull_request_run (untranslated_platform synced_platform)))
     = ["Untranslated components: component2__42"]
  /\ exists components slug r tail,
       remainder
         (health_check
            (events (pull_request_run
                       (untranslated_platform synced_platform))))
       = Called (GetUntranslatedComponentsError components slug) r :: tail
       /\ match r with
          | Err e =>
              tail = []
              /\ outcome
                   (pull_request_run (untranslated_platform synced_platform))
                 = Err e
          | Ok untranslated =>
              match truthy untranslated with
              | None =>
                  tail = []
                  /\ outcome
                       (pull_request_run
                          (untranslated_platform synced_platform))
                     = Ok tt
              | Some message =>
                  exists r',
                    tail
                    = Called (CreateComment
                                (pullRequestNumber pull_request_config)
                                message) r'
                        :: match r' with
                           | Ok _ => [Told (SetFailed message)]
                           | Err _ => []
                           end
                    /\ outcome
                         (pull_request_run
                            (untranslated_platform synced_platform))
                       = match r' with
                         | Ok _ => Ok tt
                         | Err e => Err e
                         end
              end
          end.
Proof.
  assert (Hh : health_check
                 (events (pull_request_run
                            (untranslated_platform synced_platform)))
               = Some (healthy,
                       remainder
                         (health_check (events (pull_request_run
                                    (untranslated_platform synced_platform))))))
    by (vm_compute; reflexivity).
  split; [exact Hh |]. split; [vm_compute; reflexivity |].
  exact (healthy_repository_outcome VALIDATE_PULL_REQUEST pull_request_config
           _ _ _ _
           (pull_request_run_path (untranslated_platform synced_platform))
           Hh eq_refl eq_refl eq_refl).
Defined.

(** ** Copying the trunk *)

Lemma mainMasterComponent_chosen masterComponents :
  match mainMasterComponent masterComponents with
  | Some main =>
      In main masterComponents
      /\ (unlinked main = true
          \/ (hd_error masterComponents = Some main
              /\ forallb (fun c => negb (unlinked c)) masterComponents = true))
  | None => masterComponents = []
  end.
Proof.
  unfold mainMasterComponent.
  destruct (find unlinked masterComponents) as [main |] eqn:Hf.
  - apply find_some in Hf. tauto.
  - destruct masterComponents as [| c l]; [reflexivity |].
    cbn [hd_error]. split; [left; reflexivity |]. right. split; [reflexivity |].
    apply forallb_forall. intros x Hx.
    rewrite (find_none _ _ Hf x Hx). reflexivity.
Qed.

(** X10: when the pull-request handler has found the trunk category and
    listed its components, it lists no other category, and the creations
    between the listing and resource discovery are one copy per trunk
    component, in order, named [<name>__<pullRequestNumber>] with the file
    mask and the template of the original, each linked to the main trunk
    component (the first one without a linked component, else the first)
    and created without addons. *)
Theorem clones_copy_the_trunk :
  forall config t o trunk masterComponents rest,
    path (validatePullRequest config) t o ->
    lookup_of t = Some (Some trunk) ->
    listing_of t = Some (masterComponents, rest) ->
    listings t = [Found.id trunk]
    /\ exists clones,
         created rest = clones +++ created (remainder (discovery rest))
         /\ map resource_of clones
            = map (copied_resource config) masterComponents
         /\ Forall (fun args =>
                      exists main,
                        mainMasterComponent masterComponents = Some main
                        /\ Create.repo args
                           = "weblate://" ++ project config ++ "/"
                             ++ Found.slug trunk ++ "/" ++ Component.slug main
                        /\ Create.branch args = None
                        /\ Create.applyAddons args = Some AddonsFalse)
                   clones.
Proof.
  intros config t o trunk masterComponents rest H Hl Hm.
  unfold validatePullRequest in H. reduce H.
  repeat step H; locate Hl; seek Hm; try discriminate;
    injection Hl as <-; injection Hm as <- <-.
  all: (split; [count; reflexivity |]).
  all: match goal with
       | |- context [remainder (discovery ?r)] =>
           remember (remainder (discovery r)) as followed eqn:Hd;
           seek Hd; cbn [remainder] in Hd; subst followed
       end.
  all: match goal with
       | Hfan : path (promise_all (map _ ?l)) ?x _ |- _ =>
           match type of Hfan with
           | context [match ?m with
                      | Some _ => weblate.createComponent _
                      | None => _
                      end] =>
               exists (created x);
               pose proof (mainMasterComponent_chosen l) as Hmain;
               change m with (mainMasterComponent l) in Hfan;
               destruct (mainMasterComponent l) as [main |];
               [ apply created_promise_all in Hfan
               | subst l; cbn in Hfan; destruct Hfan as [-> _] ]
           end
       end.
  all: (split;
        [ rewrite ?created_app; unfold created;
          cbn [flat_map called app]; rewrite ?app_nil_r; reflexivity |]).
  all: try (split; [reflexivity | constructor]; fail).
  all: unfold created in Hfan |- *; rewrite Hfan, map_map.
  all: (split; [reflexivity |]).
  all: apply Forall_map, Forall_forall; intros c' _; exists main; fields.
  all: repeat split; reflexivity.
Qed.

Lemma clones_copy_the_trunk_witness :
  lookup_of (events (pull_request_run synced_platform))
  = Some (Some {| Found.id := 1%N; Found.slug := "master" |})
  /\ listing_of (events (pull_request_run synced_platform))
     = Some (trunk_components,
             remainder (listing_of (events (pull_request_run synced_platform))))
  /\ listings (events (pull_request_run synced_platform)) = [1%N]
  /\ exists clones,
       created
         (remainder (listing_of (events (pull_request_run synced_platform))))
       = clones
         +++ created
               (remainder
                  (discovery
                     (remainder
                        (listing_of
                           (events (pull_request_run synced_platform))))))
       /\ map resource_of clones
          = map (copied_resource pull_request_config) trunk_components
       /\ Forall (fun args =>
                    exists main,
                      mainMasterComponent trunk_components = Some main
                      /\ Create.repo args
                         = "weblate://" ++ project pull_request_config ++ "/"
                           ++ "master" ++ "/" ++ Component.slug main
                      /\ Create.branch args = None
                      /\ Create.applyAddons args = Some AddonsFalse)
                 clones.
Proof.
  assert (Hl : lookup_of (events (pull_request_run synced_platform))
               = Some (Some {| Found.id := 1%N; Found.slug := "master" |}))
    by (vm_compute; reflexivity).
  assert (Hm : listing_of (events (pull_request_run synced_platform))
               = Some (trunk_components,
                       remainder
                         (listing_of (events (pull_request_run synced_platform)))))
    by (vm_compute; reflexivity).
  split; [exact Hl |]. split; [exact Hm |].
  exact (clones_copy_the_trunk pull_request_config _ _ _ _ _
           (pull_request_run_path synced_platform) Hl Hm).
Defined.

(** ** The category and the main component *)

(** What the calls of one run are directed at, fan-outs of creations
    counting for nothing. *)
Ltac addresses :=
  repeat first
    [ progress cbn [flat_map app called addressed]
    | rewrite flat_map_app
    | match goal with
      | Hall : Forall (fun e => is_createComponent e = true) ?x
        |- context [flat_map ?f ?x] =>
          rewrite (flat_map_silent f x)
            by (eapply Forall_impl; [| exact Hall];
                intros [[] ?r | ?o]; cbn; congruence)
      end ];
  repeat first
    [ apply Forall_nil
    | apply Forall_cons;
      [cbn [fst snd]; split;
       [first [left; reflexivity | right; reflexivity] | reflexivity] |] ].

(** X11: every pull, wait, removal of missing components, health check
    and translation check of a run is directed at the category that
    [createCategoryForBranch] answered; so is every listing of the trunk
    handler. *)
Theorem calls_address_the_category :
  forall m config t o category,
    path (modeToHandler m config) t o ->
    category_of t = Some category ->
    Forall (fun a =>
              (fst a = None \/ fst a = Some (Category.id category))
              /\ snd a = Category.slug category)
           (flat_map addressed t)
    /\ (m = SYNC_MASTER -> Forall (eq (Category.id category)) (listings t)).
Proof.
  intros m config t o category H Hc.
  destruct m; cbn [modeToHandler] in H.
  - unfold syncMaster in H. reduce H.
    repeat step H; locate Hc; try discriminate; injection Hc as <-.
    all: (split; [| intros _; count; repeat constructor]).
    all: addresses.
  - unfold validatePullRequest in H. reduce H.
    repeat step H; locate Hc; try discriminate; injection Hc as <-.
    all: (split; [| discriminate]).
    all: addresses.
  - unfold removeBranch in H. reduce H.
    repeat step H; discriminate.
Qed.

Lemma calls_address_the_category_witness :
  category_of (events (trunk_run synced_platform))
  = Some {| Category.id := 1%N;
            Category.slug := "master";
            Category.wasRecentlyCreated := false |}
  /\ flat_map addressed (events (trunk_run synced_platform))
     = [(Some 1%N, "master"); (None, "master"); (Some 1%N, "master");
        (None, "master")]
  /\ Forall (fun a => (fst a = None \/ fst a = Some 1%N) /\ snd a = "master")
            (flat_map addressed (events (trunk_run synced_platform)))
  /\ (SYNC_MASTER = SYNC_MASTER ->
      Forall (eq 1%N) (listings (events (trunk_run synced_platform)))).
Proof.
  assert (Hc : category_of (events (trunk_run synced_platform))
               = Some {| Category.id := 1%N;
                         Category.slug := "master";
                         Category.wasRecentlyCreated := false |})
    by (vm_compute; reflexivity).
  split; [exact Hc |]. split; [vm_compute; reflexivity |].
  exact (calls_address_the_category SYNC_MASTER trunk_config _ _ _
           (trunk_run_path synced_platform) Hc).
Defined.

(** The creations of a fan-out of links answer nothing to
    [owner_report]. *)
Lemma unbound_fanout {X : Type} (h : X -> prog Component.t) l t o :
  (forall x, In x l ->
             (exists args, h x = weblate.createComponent args
                           /\ bound args = false)
             \/ exists e, h x = Throw e) ->
  path (promise_all (map h l)) t o ->
  Forall (fun e => owner_report e = None) t.
Proof.
  intros Hh. apply path_promise_all.
  intros p Hin t' r Hp. apply in_map_iff in Hin.
  destruct Hin as (x & <- & Hin).
  destruct (Hh x Hin) as [(args & Heq & Hargs) | (e & Heq)];
    rewrite Heq in Hp; cbn in Hp.
  - destruct Hp as (r0 & t'' & -> & Hp).
    destruct r0; destruct Hp as [-> _]; repeat constructor.
    cbn. rewrite Hargs. reflexivity.
  - destruct Hp as [-> _]; constructor.
Qed.

(** Looks for the first component bound to the repository in [Ho], past
    the fan-outs of links. *)
Ltac seek_owner Ho :=
  unfold owner_of in Ho;
  repeat first
    [ progress (cbn [after_first owner_report bound Create.branch] in Ho)
    | match goal with
      | Hfan : path (promise_all (map _ _)) ?x _ |- _ =>
          match type of Ho with
          | context [after_first owner_report (x +++ ?t)] =>
              rewrite (after_first_app owner_report x t) in Ho
          | context [after_first owner_report x] =>
              rewrite (after_first_none owner_report x) in Ho
          end;
          [| eapply unbound_fanout; [| exact Hfan];
             intros ? _; cbv beta;
             try lazymatch goal with
                 | |- (exists _, match ?m with _ => _ end = _ /\ _) \/ _ =>
                     destruct m
                 end;
             first [ left; eexists; split; reflexivity
                   | right; eexists; reflexivity ] ]
      end ].

(** X12: once the component bound to the repository is created, every
    later creation links to the main component of the run, inside the
    category of the run, and the repository health check is asked about
    that same component. The main component is the one the platform
    reports as main in the trunk handler, when it reports one, and the
    component just created otherwise. *)
Theorem links_and_health_follow_the_main_component :
  forall m config t o category first rest,
    path (modeToHandler m config) t o ->
    category_of t = Some category ->
    owner_of t = Some (first, rest) ->
    Forall (fun args =>
              Create.repo args
              = "weblate://" ++ project config ++ "/"
                ++ Category.slug category ++ "/"
                ++ Component.slug (main_component m first rest))
           (created rest)
    /\ Forall (fun h => fst h = Component.name (main_component m first rest))
              (health_checks t).
Proof.
  intros m config t o category first rest H Hc Ho.
  destruct m; cbn [modeToHandler] in H.
  - unfold syncMaster in H. reduce H.
    repeat step H; locate Hc; seek_owner Ho; try discriminate;
      injection Hc as <-; injection Ho as <- <-.
    all: cbn [main_component option_map after_first main_report fst].
    all: (split; [| count; repeat constructor]).
    all: match goal with
         | |- Forall ?P _ => fanouts_with P ltac:(fields; reflexivity)
         end.
    all: creations.
    all: repeat first [ apply Forall_nil
                      | apply Forall_app; split
                      | assumption ].
  - unfold validatePullRequest in H. reduce H.
    repeat step H; locate Hc; seek_owner Ho; try discriminate;
      injection Hc as <-; injection Ho as <- <-.
    all: cbn [main_component].
    all: (split; [| count; repeat constructor]).
    all: match goal with
         | |- Forall ?P _ => fanouts_with P ltac:(fields; reflexivity)
         end.
    all: creations.
    all: repeat first [ apply Forall_nil
                      | apply Forall_app; split
                      | assumption ].
  - unfold removeBranch in H. reduce H.
    repeat step H; discriminate.
Qed.

Lemma links_and_health_follow_the_main_component_witness :
  category_of (events (trunk_run synced_platform))
  = Some {| Category.id := 1%N;
            Category.slug := "master";
            Category.wasRecentlyCreated := false |}
  /\ owner_of (events (trunk_run synced_platform))
     = Some ({| Component.name := "component1";
                Component.slug := "component1";
                Component.filemask := "src/i18n-keysets/component1/*.json";
                Component.template := "src/i18n-keysets/component1/en.json";
                Component.linked_component := None |},
             remainder (owner_of (events (trunk_run synced_platform))))
  /\ map Create.repo
         (created (remainder (owner_of (events (trunk_run synced_platform)))))
     = ["weblate://app/master/component1"]
  /\ health_checks (events (trunk_run synced_platform))
     = [("component1", "master")]
  /\ Forall (fun args =>
               Create.repo args
               = "weblate://" ++ project trunk_config ++ "/" ++ "master"
                 ++ "/"
                 ++ Component.slug
                      (main_component SYNC_MASTER
                         {| Component.name := "component1";
                            Component.slug := "component1";
                            Component.filemask :=
                              "src/i18n-keysets/component1/*.json";
                            Component.template :=
                              "src/i18n-keysets/component1/en.json";
                            Component.linked_component := None |}
                         (remainder
                            (owner_of (events (trunk_run synced_platform))))))
            (created
               (remainder (owner_of (events (trunk_run synced_platform)))))
  /\ Forall (fun h =>
               fst h
               = Component.name
                   (main_component SYNC_MASTER
                      {| Component.name := "component1";
                         Component.slug := "component1";
                         Component.filemask :=
                           "src/i18n-keysets/component1/*.json";
                         Component.template :=
                           "src/i18n-keysets/component1/en.json";
                         Component.linked_component := None |}
                      (remainder
                         (owner_of (events (trunk_run synced_platform))))))
            (health_checks (events (trunk_run synced_platform))).
Proof.
  assert (Hc : category_of (events (trunk_run synced_platform))
               = Some {| Category.id := 1%N;
                         Category.slug := "master";
                         Category.wasRecentlyCreated := false |})
    by (vm_compute; reflexivity).
  assert (Ho : owner_of (events (trunk_run synced_platform))
               = Some ({| Component.name := "component1";
                          Component.slug := "component1";
                          Component.filemask :=
                            "src/i18n-keysets/component1/*.json";
                          Component.template :=
                            "src/i18n-keysets/component1/en.json";
                          Component.linked_component := None |},
                       remainder
                         (owner_of (events (trunk_run synced_platform)))))
    by (vm_compute; reflexivity).
  split; [exact Hc |]. split; [exact Ho |].
  split; [vm_compute; reflexivity |]. split; [vm_compute; reflexivity |].
  exact (links_and_health_follow_the_main_component SYNC_MASTER trunk_config
           _ _ _ _ _ (trunk_run_path synced_platform) Hc Ho).
Defined.

(** ** Removing what the code no longer has *)

(** X13: when [removeMissingComponents] is called, it is called once in
    the run, with exactly the groups that resource discovery returned, and
    after it the handler creates nothing, pulls nothing and lists
    nothing. *)
Theorem removal_closes_the_reconciliation :
  forall m config t o groups rest,
    path (modeToHandler m config) t o ->
    removal_of t = Some (groups, rest) ->
    option_map fst (discovery t) = Some groups
    /\ kept t = [groups]
    /\ created rest = []
    /\ pulls rest = [] /\ component_pulls rest = [] /\ listings rest = [].
Proof.
  intros m config t o groups rest H Hr.
  destruct m; cbn [modeToHandler] in H.
  - unfold syncMaster in H. reduce H.
    repeat step H; seek Hr; try discriminate; injection Hr as <- <-.
    all: (split;
          [ match goal with
            | |- option_map fst ?d = _ =>
                remember d as found eqn:Hd; seek Hd; subst found; reflexivity
            end |]).
    all: repeat split; count; reflexivity.
  - unfold validatePullRequest in H. reduce H.
    repeat step H; seek Hr; try discriminate; injection Hr as <- <-.
    all: (split;
          [ match goal with
            | |- option_map fst ?d = _ =>
                remember d as found eqn:Hd; seek Hd; subst found; reflexivity
            end |]).
    all: repeat split; count; reflexivity.
  - unfold removeBranch in H. reduce H.
    repeat step H; discriminate.
Qed.

Lemma removal_closes_the_reconciliation_witness :
  removal_of (events (trunk_run synced_platform))
  = Some (keyset_groups,
          remainder (removal_of (events (trunk_run synced_platform))))
  /\ option_map fst (discovery (events (trunk_run synced_platform)))
     = Some keyset_groups
  /\ kept (events (trunk_run synced_platform)) = [keyset_groups]
  /\ created (remainder (removal_of (events (trunk_run synced_platform)))) = []
  /\ pulls (remainder (removal_of (events (trunk_run synced_platform)))) = []
  /\ component_pulls
       (remainder (removal_of (events (trunk_run synced_platform)))) = []
  /\ listings (remainder (removal_of (events (trunk_run synced_platform))))
     = [].
Proof.
  assert (Hr : removal_of (events (trunk_run synced_platform))
               = Some (keyset_groups,
                       remainder
                         (removal_of (events (trunk_run synced_platform)))))
    by (vm_compute; reflexivity).
  split; [exact Hr |].
  exact (removal_closes_the_reconciliation SYNC_MASTER trunk_config _ _ _ _
           (trunk_run_path synced_platform) Hr).
Defined.

(** ** Witnesses of the general statements on the handlers *)

Lemma unpushed_commits_are_fatal_witness :
  health_check (events (trunk_run (reporting unpushed empty_platform)))
  = Some (unpushed, [Told (SetFailed SYNC_MASTER_unpushed)])
  /\ truthy (mergeFailureError unpushed) = None
  /\ truthy (needsCommitError unpushed) = None
  /\ truthy (needsPushError unpushed) = Some "Repository has unpushed commits"
  /\ [Told (SetFailed SYNC_MASTER_unpushed)]
     = [Told (SetFailed SYNC_MASTER_unpushed)]
  /\ outcome (trunk_run (reporting unpushed empty_platform)) = Ok tt.
Proof.
  assert (Hh : health_check
                 (events (trunk_run (reporting unpushed empty_platform)))
               = Some (unpushed, [Told (SetFailed SYNC_MASTER_unpushed)]))
    by (vm_compute; reflexivity).
  split; [exact Hh |]. split; [reflexivity |]. split; [reflexivity |].
  split; [reflexivity |].
  exact (unpushed_commits_are_fatal SYNC_MASTER trunk_config _ _ _ _ _
           (trunk_run_path (reporting unpushed empty_platform))
           Hh eq_refl eq_refl eq_refl).
Defined.

Lemma validatePullRequest_looks_up_trunk_when_new_witness :
  category_of (events (pull_request_run synced_platform))
  = Some {| Category.id := 2%N;
            Category.slug := "feature__42";
            Category.wasRecentlyCreated := true |}
  /\ lookup_of (events (pull_request_run synced_platform))
     = Some (Some {| Found.id := 1%N; Found.slug := "master" |})
  /\ Category.wasRecentlyCreated
       {| Category.id := 2%N;
          Category.slug := "feature__42";
          Category.wasRecentlyCreated := true |} = true.
Proof.
  assert (Hc : category_of (events (pull_request_run synced_platform))
               = Some {| Category.id := 2%N;
                         Category.slug := "feature__42";
                         Category.wasRecentlyCreated := true |})
    by (vm_compute; reflexivity).
  assert (Hl : lookup_of (events (pull_request_run synced_platform))
               = Some (Some {| Found.id := 1%N; Found.slug := "master" |}))
    by (vm_compute; reflexivity).
  split; [exact Hc |]. split; [exact Hl |].
  exact (validatePullRequest_looks_up_trunk_when_new pull_request_config
           _ _ _ _ (pull_request_run_path synced_platform) Hc Hl).
Defined.

Lemma validatePullRequest_never_lists_the_category_witness :
  discovery (events (pull_request_run opened_platform))
  = Some (keyset_groups,
          remainder (discovery (events (pull_request_run opened_platform))))
  /\ listings
       (remainder (discovery (events (pull_request_run opened_platform))))
     = [].
Proof.
  assert (Hd : discovery (events (pull_request_run opened_platform))
               = Some (keyset_groups,
                       remainder
                         (discovery
                            (events (pull_request_run opened_platform)))))
    by (vm_compute; reflexivity).
  split; [exact Hd |].
  exact (validatePullRequest_never_lists_the_category pull_request_config
           _ _ _ _ (pull_request_run_path opened_platform) Hd).
Defined.

Lemma syncMaster_waits_for_whole_category_witness :
  removal_guard None None (events (trunk_run synced_platform))
  = Some (Some (Called (GetComponentsInCategory 1%N) (Ok trunk_components)),
          Some (Called (WaitComponentsTasks ["component1"; "component2"]
                                            "master") (Ok tt)),
          1%N)
  /\ exists components slug r,
       Some (Called (GetComponentsInCategory 1%N) (Ok trunk_components))
       = Some (Called (GetComponentsInCategory 1%N) (Ok components))
       /\ Some (Called (WaitComponentsTasks ["component1"; "component2"]
                                            "master") (Ok tt))
          = Some (Called (WaitComponentsTasks
                            (map Component.name components) slug) r).
Proof.
  assert (Hg : removal_guard None None (events (trunk_run synced_platform))
               = Some (Some (Called (GetComponentsInCategory 1%N)
                                    (Ok trunk_components)),
                       Some (Called (WaitComponentsTasks
                                       ["component1"; "component2"] "master")
                                    (Ok tt)),
                       1%N))
    by (vm_compute; reflexivity).
  split; [exact Hg |].
  exact (syncMaster_waits_for_whole_category trunk_config _ _ _ _ _
           (trunk_run_path synced_platform) Hg).
Defined.

(** ** The branch names sent to the platform *)



(** ** What the pull-request handler waits for *)

Lemma answers_app t1 t2 : answers (t1 +++ t2) = answers t1 +++ answers t2.
Proof. apply flat_map_app. Qed.

Lemma answers_settle_all {X : Type} (g : X -> Create.t) l :
  forall t o,
    path (settle_all (map (fun x => weblate.createComponent (g x)) l)) t o ->
    exists rs, o = Ok rs /\ answers t = fulfilled rs.
Proof.
  induction l as [| x l IH]; intros t o H.
  - destruct H as [-> ->]. exists []. auto.
  - cbn [map settle_all] in H. apply path_bind in H.
    destruct H as [(r & t1 & t2 & H1 & H2 & ->) | (e & H1 & ->)].
    + apply path_bind in H2.
      destruct H2 as [(rs & t3 & t4 & H3 & [-> ->] & ->) | (e & H3 & ->)].
      * apply IH in H3. destruct H3 as (rs' & Hrs & H3).
        injection Hrs as <-. exists (r :: rs). split; [reflexivity |].
        rewrite app_nil_r, answers_app, H3.
        cbn in H1. destruct H1 as (r0 & t' & -> & H1).
        destruct r0; destruct H1 as [-> Hr]; injection Hr as ->; reflexivity.
      * apply IH in H3. destruct H3 as (rs' & Hrs & _). discriminate.
    + apply path_settle in H1. destruct H1 as (r' & Hr & _). discriminate.
Qed.

Lemma fulfilled_collect {A : Type} (rs : list (result A)) l :
  collect rs = Ok l -> fulfilled rs = l.
Proof.
  revert l. induction rs as [| [a | e] rs IH]; intros l H; cbn in H.
  - injection H as <-. reflexivity.
  - destruct (collect rs) as [l' |]; [| discriminate].
    injection H as <-. cbn. rewrite (IH l' eq_refl). reflexivity.
  - discriminate.
Qed.

(** A fan-out of creations that is fulfilled yields the components the
    platform answered, in order. *)
Lemma answers_promise_all {X : Type} (g : X -> Create.t) l t components :
  path (promise_all (map (fun x => weblate.createComponent (g x)) l)) t
       (Ok components) ->
  answers t = components.
Proof.
  intros H. unfold promise_all in H. apply path_bind in H.
  destruct H as [(rs & t1 & t2 & H1 & H2 & ->) | (e & _ & He)];
    [| discriminate].
  apply answers_settle_all in H1. destruct H1 as (rs' & Hrs & H1).
  injection Hrs as <-. rewrite answers_app, H1.
  destruct (collect rs) as [l' |] eqn:Hc; destruct H2 as [-> Ho];
    [| discriminate].
  injection Ho as <-. rewrite app_nil_r. apply fulfilled_collect. exact Hc.
Qed.

(** X19: after resource discovery, the pull-request handler waits for the
    tasks of exactly the components that its creations answered in this
    run, and asks the translation check about exactly those; the wait has
    happened once whenever the health check is reached. *)
Theorem pull_request_waits_for_what_it_created :
  forall config t o groups rest,
    path (validatePullRequest config) t o ->
    discovery t = Some (groups, rest) ->
    Forall (eq (map Component.name (answers rest))) (waits rest)
    /\ Forall (eq (answers rest)) (untranslated_checks rest)
    /\ (health_check rest <> None ->
        waits rest = [map Component.name (answers rest)]).
Proof.
  intros config t o groups rest H Hd.
  unfold validatePullRequest in H. reduce H.
  repeat step H; seek Hd; try discriminate; injection Hd as <- <-.
  all: repeat match goal with
              | Hfan : path (promise_all (map _ (tl _))) _ (Ok _) |- _ =>
                  apply answers_promise_all in Hfan
              end.
  all: repeat split;
    try (intros Hh;
         match type of Hh with
         | ?d <> None => remember d as found eqn:Hf; seek Hf; subst found
         end;
         try congruence; clear Hh).
  all: unfold answers, waits, untranslated_checks in *.
  all: repeat first
         [ progress cbn [flat_map app called answer]
         | rewrite flat_map_app
         | match goal with
           | Hall : Forall (fun e => is_createComponent e = true) ?x
             |- context [flat_map ?f ?x] =>
               rewrite (flat_map_silent f x)
                 by (eapply Forall_impl; [| exact Hall];
                     intros [[] ?r | ?o]; cbn; congruence)
           end ].
  all: repeat match goal with
              | Hx : flat_map answer ?x = _ |- context [flat_map answer ?x] =>
                  rewrite Hx
              end.
  all: rewrite ?app_nil_r; repeat constructor.
Qed.

Lemma pull_request_waits_for_what_it_created_witness :
  discovery (events (pull_request_run (holding fs_single opened_platform)))
  = Some ([ {| name := "component1";
               source := "src/i18n-keysets/component1/en.json";
               fileMask := "src/i18n-keysets/component1/*.json" |} ],
          remainder
            (discovery
               (events (pull_request_run (holding fs_single opened_platform)))))
  /\ waits
       (remainder
          (discovery
             (events (pull_request_run (holding fs_single opened_platform)))))
     = [["component1__42"]]
  /\ Forall
       (eq (map Component.name
                (answers
                   (remainder
                      (discovery
                         (events (pull_request_run
                                    (holding fs_single opened_platform))))))))
       (waits
          (remainder
             (discovery
                (events (pull_request_run
                           (holding fs_single opened_platform))))))
  /\ Forall
       (eq (answers
              (remainder
                 (discovery
                    (events (pull_request_run
                               (holding fs_single opened_platform)))))))
       (untranslated_checks
          (remainder
             (discovery
                (events (pull_request_run
                           (holding fs_single opened_platform))))))
  /\ (health_check
        (remainder
           (discovery
              (events (pull_request_run
                         (holding fs_single opened_platform)))))
      <> None ->
      waits
        (remainder
           (discovery
              (events (pull_request_run
                         (holding fs_single opened_platform)))))
      = [map Component.name
             (answers
                (remainder
                   (discovery
                      (events (pull_request_run
                                 (holding fs_single opened_platform))))))]).
Proof.
  assert (Hd : discovery
                 (events (pull_request_run
                            (holding fs_single opened_platform)))
               = Some ([ {| name := "component1";
                            source := "src/i18n-keysets/component1/en.json";
                            fileMask :=
                              "src/i18n-keysets/component1/*.json" |} ],
                       remainder
                         (discovery
                            (events (pull_request_run
                                       (holding fs_single opened_platform))))))
    by (vm_compute; reflexivity).
  split; [exact Hd |]. split; [vm_compute; reflexivity |].
  exact (pull_request_waits_for_what_it_created pull_request_config
           _ _ _ _
           (pull_request_run_path (holding fs_single opened_platform)) Hd).
Defined.

(** * Further properties of resource discovery *)

(** The names of the glob branch, directory by directory. *)
Lemma names_of_readable_groups fs mainLanguage dirs :
  map name (flat_map (readable_groups fs mainLanguage) dirs)
  = flat_map (readable_names fs) dirs.
Proof.
  induction dirs as [| dir dirs IH]; [reflexivity |].
  cbn [flat_map]. rewrite map_app, IH. f_equal.
  unfold readable_groups, readable_names, dirComponents.
  destruct (readdir fs (Path.resolve (cwd fs) dir)); [| reflexivity].
  rewrite map_map. reflexivity.
Qed.

(** The glob branch in closed form. *)
Lemma resolveComponents_glob fs pattern mainLanguage dirs :
  isGlobPattern pattern = true ->
  glob fs pattern = Ok dirs ->
  snd (resolveComponents fs pattern mainLanguage)
  = Ok (flat_map (readable_groups fs mainLanguage) dirs).
Proof.
  intros Hg Hd. unfold resolveComponents. rewrite Hg, Hd.
  pose proof (visit_all fs mainLanguage dirs []
                [Log ["🔍 Glob pattern detected: " ++ pattern];
                 Log ["📁 Found " ++ length_of dirs
                        ++ " directories matching pattern"]]) as H.
  cbn [app] in *.
  destruct (fold_left _ dirs _) as [components console].
  cbn [fst snd] in *. destruct H as [-> _]. reflexivity.
Qed.

(** X20: [resolveComponents] rejects exactly when the expansion of a glob
    pattern, or the read of a direct path, rejects, with that error; the
    console then holds the first line only. *)
Theorem discovery_rejects_only_at_its_first_read :
  forall fs keysetsPath mainLanguage e,
    (snd (resolveComponents fs keysetsPath mainLanguage) = Err e <->
     if isGlobPattern keysetsPath
     then glob fs keysetsPath = Err e
     else readdir fs (Path.resolve (cwd fs) keysetsPath) = Err e)
    /\ (snd (resolveComponents fs keysetsPath mainLanguage) = Err e ->
        fst (resolveComponents fs keysetsPath mainLanguage)
        = [Log [(if isGlobPattern keysetsPath
                 then "🔍 Glob pattern detected: "
                 else "📂 Direct path: ") ++ keysetsPath]]).
Proof.
  intros fs keysetsPath mainLanguage e.
  destruct (isGlobPattern keysetsPath) eqn:Hg.
  - destruct (glob fs keysetsPath) as [dirs | e'] eqn:Hd.
    + rewrite (resolveComponents_glob fs keysetsPath mainLanguage dirs Hg Hd).
      split; [split |]; discriminate.
    + unfold resolveComponents. rewrite Hg, Hd. cbn [fst snd].
      split; [split; congruence | reflexivity].
  - unfold resolveComponents. rewrite Hg.
    destruct (readdir fs (Path.resolve (cwd fs) keysetsPath)); cbn [fst snd].
    + split; [split |]; discriminate.
    + split; [split; congruence | reflexivity].
Qed.

Lemma discovery_rejects_only_at_its_first_read_witness :
  glob fs_unglobbable "projects/*/keysets"
  = Err (Error "EMFILE: too many open files")
  /\ snd (resolveComponents fs_unglobbable "projects/*/keysets" "en")
     = Err (Error "EMFILE: too many open files")
  /\ fst (resolveComponents fs_unglobbable "projects/*/keysets" "en")
     = [Log ["🔍 Glob pattern detected: projects/*/keysets"]].
Proof.
  destruct (discovery_rejects_only_at_its_first_read fs_unglobbable
              "projects/*/keysets" "en"
              (Error "EMFILE: too many open files")) as [Hr Hc].
  split; [reflexivity |].
  split; [apply Hr; reflexivity | apply Hc; apply Hr; reflexivity].
Defined.

(** X21: every group of the glob branch comes from a non-hidden
    subdirectory of a matched directory that could be read; it is named
    after the prefix of that directory and the subdirectory, and its source
    and file mask are the matched directory joined with the subdirectory
    and [<mainLanguage>.json] or [*.json], literally
    [<dir>/<name>/<file>] when the path is made of plain segments. *)
Theorem glob_groups_point_into_their_directory :
  forall fs pattern mainLanguage dirs,
    isGlobPattern pattern = true ->
    glob fs pattern = Ok dirs ->
    exists groups,
      snd (resolveComponents fs pattern mainLanguage) = Ok groups
      /\ Forall (fun g =>
                   exists dir dirents d,
                     In dir dirs
                     /\ readdir fs (Path.resolve (cwd fs) dir) = Ok dirents
                     /\ In d dirents
                     /\ isDirectory d = true
                     /\ startsWith "." (dirent_name d) = false
                     /\ name g = parentDirName dir ++ "_" ++ dirent_name d
                     /\ source g
                        = Path.join [dir; dirent_name d; mainLanguage ++ ".json"]
                     /\ fileMask g = Path.join [dir; dirent_name d; "*.json"]
                     /\ (plain_path dir = true ->
                         plain (dirent_name d) = true ->
                         includes "/" mainLanguage = false ->
                         source g = dir ++ "/" ++ dirent_name d ++ "/"
                                    ++ mainLanguage ++ ".json"
                         /\ fileMask g
                            = dir ++ "/" ++ dirent_name d ++ "/*.json"))
                groups.
Proof.
  intros fs pattern mainLanguage dirs Hg Hd.
  rewrite (resolveComponents_glob fs pattern mainLanguage dirs Hg Hd).
  eexists; split; [reflexivity |].
  apply Forall_forall. intros g Hin. apply in_flat_map in Hin.
  destruct Hin as (dir & Hdir & Hin). unfold readable_groups in Hin.
  destruct (readdir fs (Path.resolve (cwd fs) dir)) as [dirents | e] eqn:Hr;
    [| destruct Hin].
  unfold dirComponents in Hin. apply in_map_iff in Hin.
  destruct Hin as (d & <- & Hin). apply filter_In in Hin.
  destruct Hin as [Hin Hv]. unfold visible_directory in Hv.
  apply andb_true_iff in Hv. destruct Hv as [Hv1 Hv2].
  apply negb_true_iff in Hv2.
  exists dir, dirents, d. cbn [name source fileMask].
  repeat (split; [assumption || reflexivity |]).
  intros Hp Hn Hl. split; apply join_plain; auto.
  apply plain_json; exact Hl.
Qed.

Lemma glob_groups_point_into_their_directory_witness :
  isGlobPattern "projects/*/src/i18n-keysets" = true
  /\ glob fs_projects "projects/*/src/i18n-keysets"
     = Ok ["projects/project-a/src/i18n-keysets";
           "projects/project-b/src/i18n-keysets"]
  /\ map source
         (match snd (resolveComponents fs_projects
                                       "projects/*/src/i18n-keysets" "en") with
          | Ok groups => groups
          | Err _ => []
          end)
     = ["projects/project-a/src/i18n-keysets/component1/en.json";
        "projects/project-b/src/i18n-keysets/component2/en.json"]
  /\ exists groups,
       snd (resolveComponents fs_projects "projects/*/src/i18n-keysets" "en")
       = Ok groups
       /\ Forall (fun g =>
                    exists dir dirents d,
                      In dir ["projects/project-a/src/i18n-keysets";
                              "projects/project-b/src/i18n-keysets"]
                      /\ readdir fs_projects
                                 (Path.resolve (cwd fs_projects) dir)
                         = Ok dirents
                      /\ In d dirents
                      /\ isDirectory d = true
                      /\ startsWith "." (dirent_name d) = false
                      /\ name g = parentDirName dir ++ "_" ++ dirent_name d
                      /\ source g
                         = Path.join [dir; dirent_name d; "en" ++ ".json"]
                      /\ fileMask g = Path.join [dir; dirent_name d; "*.json"]
                      /\ (plain_path dir = true ->
                          plain (dirent_name d) = true ->
                          includes "/" "en" = false ->
                          source g = dir ++ "/" ++ dirent_name d ++ "/"
                                     ++ "en" ++ ".json"
                          /\ fileMask g
                             = dir ++ "/" ++ dirent_name d ++ "/*.json"))
                 groups.
Proof.
  split; [reflexivity |]. split; [reflexivity |].
  split; [vm_compute; reflexivity |].
  exact (glob_groups_point_into_their_directory fs_projects
           "projects/*/src/i18n-keysets" "en"
           ["projects/project-a/src/i18n-keysets";
            "projects/project-b/src/i18n-keysets"] eq_refl eq_refl).
Defined.

(** ** Do the prefixes keep the names apart? *)

Lemma includes_char_cons ch c s :
  includes (String ch "") (String c s)
  = Ascii.eqb c ch || includes (String ch "") s.
Proof.
  cbn [includes String.prefix].
  destruct (ascii_dec ch c) as [<- | Hne].
  - rewrite Ascii.eqb_refl. destruct s; reflexivity.
  - replace (Ascii.eqb c ch) with false; [reflexivity |].
    symmetry. apply Ascii.eqb_neq. congruence.
Qed.

(** A name splits at its first underscore in one way only. *)
Lemma prefix_splits_once p1 :
  forall p2 n1 n2,
    includes "_" p1 = false ->
    includes "_" p2 = false ->
    p1 ++ "_" ++ n1 = p2 ++ "_" ++ n2 ->
    p1 = p2 /\ n1 = n2.
Proof.
  induction p1 as [| c1 p1 IH]; intros [| c2 p2] n1 n2 H1 H2 E.
  - cbn in E. injection E as ->. auto.
  - cbn in E. injection E as <- _.
    rewrite includes_char_cons, Ascii.eqb_refl in H2. discriminate.
  - cbn in E. injection E as -> _.
    rewrite includes_char_cons, Ascii.eqb_refl in H1. discriminate.
  - cbn in E. injection E as -> E.
    rewrite includes_char_cons in H1, H2.
    apply orb_false_iff in H1, H2.
    destruct (IH p2 n1 n2 (proj2 H1) (proj2 H2) E) as [-> ->]. auto.
Qed.

Lemma append_cancel p a b : p ++ a = p ++ b -> a = b.
Proof.
  induction p as [| c p IH]; cbn; [auto |].
  intros E. injection E as E. auto.
Qed.

Lemma NoDup_flat_map {A B : Type} (f : A -> list B) l :
  (forall a, In a l -> NoDup (f a)) ->
  (forall a b x, In a l -> In b l -> In x (f a) -> In x (f b) -> a = b) ->
  NoDup l ->
  NoDup (flat_map f l).
Proof.
  intros Hf Hab Hl. induction Hl as [| a l Ha Hl IH]; [constructor |].
  cbn [flat_map]. apply NoDup_app.
  - apply Hf. left. reflexivity.
  - apply IH.
    + intros b Hb. apply Hf. right. exact Hb.
    + intros b c x Hb Hc. apply Hab; right; assumption.
  - intros x Hx Hx'. apply in_flat_map in Hx'.
    destruct Hx' as (b & Hb & Hx').
    assert (a = b) as -> by (apply (Hab a b x); auto; [left | right]; auto).
    contradiction.
Qed.

(** X22: the names of the glob branch are pairwise distinct when the
    matched directories have pairwise distinct prefixes without
    underscore and no listing names a visible subdirectory twice. *)
Theorem glob_names_are_distinct :
  forall fs pattern mainLanguage dirs groups,
    isGlobPattern pattern = true ->
    glob fs pattern = Ok dirs ->
    NoDup (map parentDirName dirs) ->
    Forall (fun dir => includes "_" (parentDirName dir) = false) dirs ->
    Forall (fun dir =>
              forall dirents,
                readdir fs (Path.resolve (cwd fs) dir) = Ok dirents ->
                NoDup (map dirent_name (filter visible_directory dirents)))
           dirs ->
    snd (resolveComponents fs pattern mainLanguage) = Ok groups ->
    NoDup (map name groups).
Proof.
  intros fs pattern mainLanguage dirs groups Hg Hd Hp Hu Hn Hr.
  rewrite (resolveComponents_glob fs pattern mainLanguage dirs Hg Hd) in Hr.
  injection Hr as <-. rewrite names_of_readable_groups.
  rewrite Forall_forall in Hu, Hn.
  apply NoDup_flat_map.
  - intros dir Hin. unfold readable_names.
    destruct (readdir fs (Path.resolve (cwd fs) dir)) as [dirents | e] eqn:Hr;
      [| constructor].
    specialize (Hn dir Hin dirents Hr).
    rewrite <- (map_map dirent_name
                        (fun n => parentDirName dir ++ "_" ++ n)).
    apply NoDup_map_NoDup_ForallPairs; [| exact Hn].
    intros a b _ _ E. apply append_cancel in E. injection E as E. exact E.
  - intros dir1 dir2 x Hin1 Hin2 Hx1 Hx2. unfold readable_names in Hx1, Hx2.
    destruct (readdir fs (Path.resolve (cwd fs) dir1)); [| destruct Hx1].
    destruct (readdir fs (Path.resolve (cwd fs) dir2)); [| destruct Hx2].
    apply in_map_iff in Hx1, Hx2.
    destruct Hx1 as (d1 & <- & _). destruct Hx2 as (d2 & E & _).
    apply prefix_splits_once in E; auto. destruct E as [E _].
    clear - Hp Hin1 Hin2 E.
    induction dirs as [| dir dirs IH]; [destruct Hin1 |].
    cbn [map] in Hp. inversion Hp as [| ? ? Hnot Hrest]; subst.
    destruct Hin1 as [-> | Hin1], Hin2 as [-> | Hin2]; auto.
    + exfalso. apply Hnot. rewrite <- E. apply in_map. exact Hin2.
    + exfalso. apply Hnot. rewrite E. apply in_map. exact Hin1.
  - eapply NoDup_map_inv. exact Hp.
Qed.

Lemma glob_names_are_distinct_witness :
  isGlobPattern "projects/*/src/i18n-keysets" = true
  /\ glob fs_projects "projects/*/src/i18n-keysets"
     = Ok ["projects/project-a/src/i18n-keysets";
           "projects/project-b/src/i18n-keysets"]
  /\ snd (resolveComponents fs_projects "projects/*/src/i18n-keysets" "en")
     = Ok [ {| name := "project-a_component1";
               source :=
                 "projects/project-a/src/i18n-keysets/component1/en.json";
               fileMask :=
                 "projects/project-a/src/i18n-keysets/component1/*.json" |};
            {| name := "project-b_component2";
               source :=
                 "projects/project-b/src/i18n-keysets/component2/en.json";
               fileMask :=
                 "projects/project-b/src/i18n-keysets/component2/*.json" |} ]
  /\ NoDup ["project-a_component1"; "project-b_component2"].
Proof.
  assert (Hr : snd (resolveComponents fs_projects
                                      "projects/*/src/i18n-keysets" "en")
               = Ok [ {| name := "project-a_component1";
                         source :=
                           "projects/project-a/src/i18n-keysets/component1/en.json";
                         fileMask :=
                           "projects/project-a/src/i18n-keysets/component1/*.json" |};
                      {| name := "project-b_component2";
                         source :=
                           "projects/project-b/src/i18n-keysets/component2/en.json";
                         fileMask :=
                           "projects/project-b/src/i18n-keysets/component2/*.json" |} ])
    by (vm_compute; reflexivity).
  split; [reflexivity |]. split; [reflexivity |]. split; [exact Hr |].
  refine (glob_names_are_distinct fs_projects "projects/*/src/i18n-keysets"
            "en"
            ["projects/project-a/src/i18n-keysets";
             "projects/project-b/src/i18n-keysets"]
            _ eq_refl eq_refl _ _ _ Hr).
  - vm_compute. repeat constructor; cbn; intuition discriminate.
  - repeat constructor.
  - repeat constructor; intros dirents E; vm_compute in E;
      injection E as <-; vm_compute; repeat constructor; cbn; tauto.
Defined.

(** Without the condition on underscores the names can coincide: the
    groups [c] of [projects/a_b] and [b_c] of [projects/a] are both named
    [a_b_c]. *)
Example prefixed_names_can_coincide :
  isGlobPattern "projects/*/keysets" = true
  /\ NoDup (map parentDirName ["projects/a_b/keysets"; "projects/a/keysets"])
  /\ exists groups,
       snd (resolveComponents fs_colliding "projects/*/keysets" "en")
       = Ok groups
       /\ map name groups = ["a_b_c"; "a_b_c"].
Proof.
  split; [reflexivity |]. split.
  - vm_compute. repeat constructor; cbn; intuition discriminate.
  - eexists. split; vm_compute; reflexivity.
Qed.

(** ** When nothing is found *)

Lemma filter_nil_forallb {A : Type} (f : A -> bool) l :
  filter f l = [] <-> forallb (fun a => negb (f a)) l = true.
Proof.
  induction l as [| a l IH]; cbn; [tauto |].
  destruct (f a); cbn; [| exact IH].
  split; discriminate.
Qed.

Lemma flat_map_nil {A B : Type} (f : A -> list B) l :
  flat_map f l = [] <-> Forall (fun a => f a = []) l.
Proof.
  induction l as [| a l IH]; cbn [flat_map].
  - split; [constructor | reflexivity].
  - split.
    + intros E. apply app_eq_nil in E. destruct E as [Ea El].
      constructor; [exact Ea | apply IH; exact El].
    + intros H. inversion H as [| ? ? Ha Hl]; subst.
      rewrite Ha. apply IH. exact Hl.
Qed.

(** X23: a successful [resolveComponents] returns no group exactly when
    no directory it could read holds a non-hidden subdirectory. *)
Theorem no_group_exactly_without_visible_directory :
  forall fs keysetsPath mainLanguage groups,
    snd (resolveComponents fs keysetsPath mainLanguage) = Ok groups ->
    (groups = [] <->
     if isGlobPattern keysetsPath
     then forall dirs,
            glob fs keysetsPath = Ok dirs ->
            Forall (fun dir =>
                      forall dirents,
                        readdir fs (Path.resolve (cwd fs) dir) = Ok dirents ->
                        nothing_visible dirents = true)
                   dirs
     else forall dirents,
            readdir fs (Path.resolve (cwd fs) keysetsPath) = Ok dirents ->
            nothing_visible dirents = true).
Proof.
  intros fs keysetsPath mainLanguage groups Hr.
  destruct (isGlobPattern keysetsPath) eqn:Hg.
  - destruct (glob fs keysetsPath) as [dirs | e] eqn:Hd.
    + rewrite (resolveComponents_glob fs keysetsPath mainLanguage dirs Hg Hd)
        in Hr.
      injection Hr as <-. rewrite flat_map_nil. split.
      * intros H dirs' E. injection E as <-.
        eapply Forall_impl; [| exact H]. intros dir Hdir dirents Hread.
        unfold readable_groups, dirComponents in Hdir. rewrite Hread in Hdir.
        apply map_eq_nil in Hdir. apply filter_nil_forallb. exact Hdir.
      * intros H. specialize (H dirs eq_refl).
        eapply Forall_impl; [| exact H]. intros dir Hdir.
        unfold readable_groups, dirComponents.
        destruct (readdir fs (Path.resolve (cwd fs) dir))
          as [dirents | e] eqn:Hread; [| reflexivity].
        specialize (Hdir dirents Hread).
        apply filter_nil_forallb in Hdir. rewrite Hdir. reflexivity.
    + unfold resolveComponents in Hr. rewrite Hg, Hd in Hr. discriminate.
  - unfold resolveComponents in Hr. rewrite Hg in Hr.
    destruct (readdir fs (Path.resolve (cwd fs) keysetsPath))
      as [dirents | e]; [| discriminate].
    cbn [snd] in Hr. injection Hr as <-. unfold directComponents. split.
    + intros E dirents' E'. injection E' as <-.
      apply map_eq_nil in E. apply filter_nil_forallb. exact E.
    + intros H. specialize (H dirents eq_refl).
      apply filter_nil_forallb in H. rewrite H. reflexivity.
Qed.

Lemma no_group_exactly_without_visible_directory_witness :
  snd (resolveComponents fs_no_groups "src/i18n-keysets" "en") = Ok []
  /\ (@nil ComponentInCode = [] <->
      if isGlobPattern "src/i18n-keysets"
      then forall dirs,
             glob fs_no_groups "src/i18n-keysets" = Ok dirs ->
             Forall (fun dir =>
                       forall dirents,
                         readdir fs_no_groups
                                 (Path.resolve (cwd fs_no_groups) dir)
                         = Ok dirents ->
                         nothing_visible dirents = true)
                    dirs
      else forall dirents,
             readdir fs_no_groups
                     (Path.resolve (cwd fs_no_groups) "src/i18n-keysets")
             = Ok dirents ->
             nothing_visible dirents = true).
Proof.
  assert (Hr : snd (resolveComponents fs_no_groups "src/i18n-keysets" "en")
               = Ok []) by (vm_compute; reflexivity).
  split; [exact Hr |].
  exact (no_group_exactly_without_visible_directory fs_no_groups
           "src/i18n-keysets" "en" [] Hr).
Defined.
